(** * django-zengo: the event store, the ticket synchroniser and the
      reconciliation pipeline of [zengo/service.py] over the schema of
      [zengo/models.py], as a shallow embedding.

    Python objects become records, Django tables become lists of rows with
    an auto-increment counter, and code that raises or writes to the
    database becomes a function from the database to a result and the
    database it leaves behind. *)

From stdpp Require Import base list gmap strings.
From Stdlib Require Import ZArith Lia Ascii String Sorted.

Local Open Scope Z_scope.

(** ** Exceptions and the state-and-exception monad *)

(** The Python and Django exceptions the embedded code can raise. *)
Inductive exn : Type :=
| ValidationError (message : string)
| ValueError (message : string)
| TypeError (message : string)
| KeyError (key : string)
| AttributeError (message : string)
| OverflowError
| IntegrityError
| MultipleObjectsReturned
| DatabaseError
| APIException (message : string).

Inductive result (A : Type) : Type :=
| Ok (a : A)
| Raise (e : exn).
Arguments Ok {A} a.
Arguments Raise {A} e.

(** A computation over a store [S]: it returns or raises, and in both cases
    hands back the store (a raise does not undo earlier writes; only
    [atomic], further down, does). *)
Definition M (S A : Type) : Type := S -> result A * S.

Definition ret {S A} (a : A) : M S A := fun s => (Ok a, s).
Definition raise {S A} (e : exn) : M S A := fun s => (Raise e, s).
Definition bind {S A B} (c : M S A) (k : A -> M S B) : M S B :=
  fun s => match c s with
           | (Ok a, s') => k a s'
           | (Raise e, s') => (Raise e, s')
           end.
Definition lift {S A} (r : result A) : M S A := fun s => (r, s).

(** [try: c except h]: every exception of [c] goes through [h] (a handler
    re-raises what its [except] clauses do not name). *)
Definition try_except {S A} (c : M S A) (h : exn -> M S A) : M S A :=
  fun s => match c s with
           | (Ok a, s') => (Ok a, s')
           | (Raise e, s') => h e s'
           end.

Notation "'let*' x := c 'in' k" := (bind c (fun x => k))
  (at level 10, x binder, c at level 100, k at level 200).

Definition rbind {A B} (r : result A) (k : A -> result B) : result B :=
  match r with Ok a => k a | Raise e => Raise e end.

(** ** JSON values, subscripting and [int()] *)

(** A Python float as [json.loads] can produce one. *)
Inductive pyfloat : Type :=
| FFinite (num : Z) (den : positive)
| FInf (negative : bool)
| FNaN.

(** What [json.loads] returns. *)
#[local] Set Warnings "-register-all".
Inductive json : Type :=
| JNull
| JBool (b : bool)
| JInt (n : Z)
| JFloat (f : pyfloat)
| JStr (s : string)
| JList (l : list json)
| JDict (items : list (string * json)).
#[local] Set Warnings "register-all".

Fixpoint dict_get {A} (items : list (string * A)) (k : string) : option A :=
  match items with
  | [] => None
  | (k', v) :: rest => if String.eqb k' k then Some v else dict_get rest k
  end.

(** [d[k]] for a string key [k]: only a dict can be subscripted by a
    string; a missing key is a [KeyError], anything else a [TypeError]. *)
Definition getitem (d : json) (k : string) : result json :=
  match d with
  | JDict items =>
      match dict_get items k with
      | Some v => Ok v
      | None => Raise (KeyError k)
      end
  | JList _ | JStr _ => Raise (TypeError "indices must be integers")
  | JNull | JBool _ | JInt _ | JFloat _ => Raise (TypeError "object is not subscriptable")
  end.

(** ASCII lower-casing, which is what [str.lower] does on the letters of
    the six status names. *)
Definition lower_ascii (c : ascii) : ascii :=
  let n := nat_of_ascii c in
  if ((65 <=? n)%nat && (n <=? 90)%nat)%bool then ascii_of_nat (n + 32) else c.

Fixpoint lower (s : string) : string :=
  match s with
  | EmptyString => EmptyString
  | String c rest => String (lower_ascii c) (lower rest)
  end.

(** ** The schema of [zengo/models.py]

    A foreign key is held as the primary key of the row it points to, a
    timestamp as a number.  A field declared [null=True] is an [option]. *)

Module ZendeskUser.
Record t : Type := mk
  { id : Z;
    zendesk_id : Z;
    name : option string;
    email : option string;
    user : option Z;
    created_at : Z }.
(** The [defaults] of the upsert in
    [update_or_create_local_zd_user_for_remote_zd_user]. *)
Record defaults : Type := mk_defaults
  { d_user : option Z;
    d_email : option string;
    d_created_at : Z;
    d_name : option string }.
End ZendeskUser.

Module Ticket.
(** [states = Constants(Constant(new="new"), ...)]. *)
Inductive states : Type := new | open | pending | hold | solved | closed.
(** [states.by_id.get(s)]: the constant whose id is [s], or [None]. *)
Definition states_by_id_get (s : string) : option states :=
  if String.eqb s "new" then Some new
  else if String.eqb s "open" then Some open
  else if String.eqb s "pending" then Some pending
  else if String.eqb s "hold" then Some hold
  else if String.eqb s "solved" then Some solved
  else if String.eqb s "closed" then Some closed
  else None.
(** A [Ticket] instance.  The Python object can hold [None] in [status];
    the column is declared without [null=True], so a row cannot.
    [custom_fields] and [tags] are the text of the two [TextField] columns.
    The Python instance an upsert returns still carries the raw value the
    remote side handed over, where a row read back carries its text; the
    two are identified here, an instance being held as the row it is stored
    as, so the diff of a returned instance against a row read back is not
    stated for these two fields. *)
Record t : Type := mk
  { id : Z;
    zendesk_id : Z;
    requester : Z;
    subject : option string;
    description : option string;
    url : option string;
    status : option states;
    custom_fields : option string;
    tags : option string;
    created_at : Z;
    updated_at : option Z }.
(** The [defaults] of the upsert in [sync_ticket]. *)
Record defaults : Type := mk_defaults
  { d_requester : Z;
    d_subject : option string;
    d_description : option string;
    d_url : option string;
    d_status : option states;
    d_custom_fields : option string;
    d_tags : option string;
    d_created_at : Z;
    d_updated_at : option Z }.
End Ticket.

Module Comment.
Record t : Type := mk
  { id : Z;
    zendesk_id : Z;
    ticket : Z;
    author : Z;
    body : option string;
    public : bool;
    created_at : Z }.
(** The [defaults] of the upsert in [sync_comments]. *)
Record defaults : Type := mk_defaults
  { d_author : Z;
    d_body : option string;
    d_public : bool;
    d_created_at : Z }.
End Comment.

Module Event.
(** The two clock-driven columns [created_at] and [updated_at] are left
    out: no claim reads them. *)
Record t : Type := mk
  { id : Z;
    raw_data : string;
    remote_ticket_id : option Z;
    error : option string;
    ticket : option Z }.
End Event.

(** The Django user model, as far as the service reads it;
    [emailaddress_set] holds (address, verified) pairs. *)
Module LocalUser.
Record t : Type := mk
  { id : Z;
    first_name : string;
    email : string;
    emailaddress_set : list (string * bool) }.
End LocalUser.

(** ** What the Zendesk API wrapper hands over *)

Module RemoteUser.
Record t : Type := mk
  { id : Z;
    name : option string;
    email : option string;
    external_id : option Z;
    created_at : Z }.
End RemoteUser.

Module RemoteTicket.
Record t : Type := mk
  { id : Z;
    requester : RemoteUser.t;
    subject : option string;
    description : option string;
    url : option string;
    status : string;
    custom_fields : option string;
    tags : option string;
    created_at : Z;
    updated_at : option Z }.
End RemoteTicket.

Module RemoteComment.
Record t : Type := mk
  { id : Z;
    author : RemoteUser.t;
    body : option string;
    public : bool;
    created_at : Z }.
End RemoteComment.

#[global] Instance RemoteUser_eq_dec : EqDecision RemoteUser.t.
Proof. solve_decision. Defined.

(** The Zenpy client: fetching a ticket or its comments can fail; a search
    yields the matching users, [count] being their number and [next()] the
    first of them. *)
Record Client : Type := mkClient
  { client_tickets : Z -> result RemoteTicket.t;
    client_tickets_comments : Z -> result (list RemoteComment.t);
    client_search_external_id : Z -> list RemoteUser.t;
    client_search_email : string -> list RemoteUser.t }.

(** ** Tables and [update_or_create] *)

Record table (R : Type) : Type := Table { rows : list R; next_id : Z }.
Arguments Table {R} rows next_id.
Arguments rows {R} t.
Arguments next_id {R} t.

(** What [objects.update_or_create] needs to know
    of a model: its primary key, the lookup columns [K], the column
    declared [unique=True] (the remote id, in all three models), how a new
    instance is built, how the defaults are assigned to a fetched one, and
    whether the defaults leave a NOT NULL column empty. *)
Class Model (R K V : Type) : Type := mkModel
  { pk : R -> Z;
    key_of : R -> K;
    key_eq_dec :: EqDecision K;
    unique_of : K -> Z;
    build : Z -> K -> V -> R;
    assign : V -> R -> R;
    valid : V -> bool }.
Arguments pk {R K V _} r.
Arguments key_of {R K V _} r.
Arguments unique_of {R K V _} k.
Arguments build {R K V _} i k v.
Arguments assign {R K V _} v r.
Arguments valid {R K V _} v.

(** [QuerySet.update_or_create]: a [get] by the lookup; on [DoesNotExist] an
    INSERT, which the database refuses when a NOT NULL column is empty or
    the unique column is taken; on one match every default is assigned and
    the row is written back by primary key; several matches raise.  A
    refused write leaves the table as it was. *)
Definition update_or_create {R K V} `{Model R K V} (k : K) (v : V)
    : M (table R) (R * bool) :=
  fun t =>
    match filter (fun r => key_of r = k) (rows t) with
    | [] =>
        let r := build (next_id t) k v in
        if negb (valid v) then (Raise IntegrityError, t)
        else if bool_decide (unique_of k ∈ (fun x => unique_of (key_of x)) <$> rows t)
        then (Raise IntegrityError, t)
        else (Ok (r, true), Table (rows t ++ [r]) (next_id t + 1))
    | [r] =>
        let r' := assign v r in
        if negb (valid v) then (Raise IntegrityError, t)
        else (Ok (r', false),
              Table ((fun x => if bool_decide (pk x = pk r) then r' else x) <$> rows t)
                    (next_id t))
    | _ => (Raise MultipleObjectsReturned, t)
    end.

#[global] Instance ZendeskUser_Model : Model ZendeskUser.t Z ZendeskUser.defaults :=
  {| pk := ZendeskUser.id;
     key_of := ZendeskUser.zendesk_id;
     unique_of := fun k => k;
     build := fun i k v =>
       ZendeskUser.mk i k (ZendeskUser.d_name v) (ZendeskUser.d_email v)
                      (ZendeskUser.d_user v) (ZendeskUser.d_created_at v);
     assign := fun v r =>
       ZendeskUser.mk (ZendeskUser.id r) (ZendeskUser.zendesk_id r)
                      (ZendeskUser.d_name v) (ZendeskUser.d_email v)
                      (ZendeskUser.d_user v) (ZendeskUser.d_created_at v);
     valid := fun _ => true |}.

#[global] Instance Ticket_Model : Model Ticket.t Z Ticket.defaults :=
  {| pk := Ticket.id;
     key_of := Ticket.zendesk_id;
     unique_of := fun k => k;
     build := fun i k v =>
       Ticket.mk i k (Ticket.d_requester v) (Ticket.d_subject v)
                 (Ticket.d_description v) (Ticket.d_url v) (Ticket.d_status v)
                 (Ticket.d_custom_fields v) (Ticket.d_tags v)
                 (Ticket.d_created_at v) (Ticket.d_updated_at v);
     assign := fun v r =>
       Ticket.mk (Ticket.id r) (Ticket.zendesk_id r)
                 (Ticket.d_requester v) (Ticket.d_subject v)
                 (Ticket.d_description v) (Ticket.d_url v) (Ticket.d_status v)
                 (Ticket.d_custom_fields v) (Ticket.d_tags v)
                 (Ticket.d_created_at v) (Ticket.d_updated_at v);
     valid := fun v => bool_decide (is_Some (Ticket.d_status v)) |}.

(** A comment is looked up by the pair (remote comment id, ticket), while
    the column declared unique is the remote comment id alone. *)
#[global] Instance Comment_Model : Model Comment.t (Z * Z) Comment.defaults :=
  {| pk := Comment.id;
     key_of := fun r => (Comment.zendesk_id r, Comment.ticket r);
     unique_of := fst;
     build := fun i k v =>
       Comment.mk i (fst k) (snd k) (Comment.d_author v) (Comment.d_body v)
                  (Comment.d_public v) (Comment.d_created_at v);
     assign := fun v r =>
       Comment.mk (Comment.id r) (Comment.zendesk_id r) (Comment.ticket r)
                  (Comment.d_author v) (Comment.d_body v)
                  (Comment.d_public v) (Comment.d_created_at v);
     valid := fun _ => true |}.

(** The database: the four tables of the app and the table of the Django
    user model. *)
Record DB : Type := mkDB
  { users : table ZendeskUser.t;
    tickets : table Ticket.t;
    comments : table Comment.t;
    events : table Event.t;
    local_users : list LocalUser.t }.

Definition on_users {A} (c : M (table ZendeskUser.t) A) : M DB A :=
  fun db => let '(r, t) := c (users db) in
            (r, mkDB t (tickets db) (comments db) (events db) (local_users db)).
Definition on_tickets {A} (c : M (table Ticket.t) A) : M DB A :=
  fun db => let '(r, t) := c (tickets db) in
            (r, mkDB (users db) t (comments db) (events db) (local_users db)).
Definition on_comments {A} (c : M (table Comment.t) A) : M DB A :=
  fun db => let '(r, t) := c (comments db) in
            (r, mkDB (users db) (tickets db) t (events db) (local_users db)).
Definition on_events {A} (c : M (table Event.t) A) : M DB A :=
  fun db => let '(r, t) := c (events db) in
            (r, mkDB (users db) (tickets db) (comments db) t (local_users db)).
Definition get_db {A} (f : DB -> A) : M DB A := fun db => (Ok (f db), db).

(** ** [ZengoService] *)

Section Service.

(** [self.client]. *)
Variable client : Client.

Definition get_local_user_name (local_user : LocalUser.t) : string :=
  LocalUser.first_name local_user.

Definition get_local_user_external_id (local_user : LocalUser.t) : Z :=
  LocalUser.id local_user.

(** [get_user_model().objects.filter(id=external_id).first()]. *)
Definition get_local_user_for_external_id (external_id : option Z) (db : DB)
    : option LocalUser.t :=
  match external_id with
  | None => None
  | Some i => head (filter (fun u => LocalUser.id u = i) (local_users db))
  end.

(** [get_remote_zd_user_for_local_user]: the search by external id, then
    (the search by associated email addresses being commented out in the
    source) the search by [local_user.email] when that is not empty. *)
Definition get_remote_zd_user_for_local_user (local_user : LocalUser.t)
    : option RemoteUser.t * bool :=
  let result := client_search_external_id client (get_local_user_external_id local_user) in
  if negb (Nat.eqb (List.length result) 0) then (head result, true)
  else
    let no_match := (None, false) in
    if negb (String.eqb (LocalUser.email local_user) "") then
      let result := client_search_email client (LocalUser.email local_user) in
      if negb (Nat.eqb (List.length result) 0) then (head result, false)
      else no_match
    else no_match.

Definition update_or_create_local_zd_user_for_remote_zd_user
    (remote_zd_user : RemoteUser.t) : M DB ZendeskUser.t :=
  let* local_user := get_db (get_local_user_for_external_id
                               (RemoteUser.external_id remote_zd_user)) in
  let* '(instance, created) :=
    on_users (update_or_create (RemoteUser.id remote_zd_user)
      {| ZendeskUser.d_user := LocalUser.id <$> local_user;
         ZendeskUser.d_email := RemoteUser.email remote_zd_user;
         ZendeskUser.d_created_at := RemoteUser.created_at remote_zd_user;
         ZendeskUser.d_name := RemoteUser.name remote_zd_user |}) in
  ret instance.

(** [user_map]: a dict from remote users to local ones, the local one held
    as its primary key (all that the comment upsert stores of it). *)
Fixpoint user_map_get (user_map : list (RemoteUser.t * Z)) (k : RemoteUser.t)
    : option Z :=
  match user_map with
  | [] => None
  | (k', v) :: rest => if decide (k' = k) then Some v else user_map_get rest k
  end.

(** The body of the [for remote_comment in ...] loop of [sync_comments]. *)
Fixpoint sync_comments_loop (remote_comments : list RemoteComment.t)
    (local_ticket : Ticket.t) (user_map : list (RemoteUser.t * Z))
    (local_comments : list Comment.t) : M DB (list Comment.t) :=
  match remote_comments with
  | [] => ret local_comments
  | remote_comment :: rest =>
      let* '(author, user_map) :=
        match user_map_get user_map (RemoteComment.author remote_comment) with
        | None =>
            let* author := update_or_create_local_zd_user_for_remote_zd_user
                             (RemoteComment.author remote_comment) in
            ret (ZendeskUser.id author,
                 user_map ++ [(RemoteComment.author remote_comment, ZendeskUser.id author)])
        | Some author => ret (author, user_map)
        end in
      let* '(local_comment, created) :=
        on_comments (update_or_create
          (RemoteComment.id remote_comment, Ticket.id local_ticket)
          {| Comment.d_author := author;
             Comment.d_body := RemoteComment.body remote_comment;
             Comment.d_public := RemoteComment.public remote_comment;
             Comment.d_created_at := RemoteComment.created_at remote_comment |}) in
      sync_comments_loop rest local_ticket user_map (local_comments ++ [local_comment])
  end.

(** [(c.created_at, c.id)] compared as tuples. *)
Definition comment_key_le (a b : Comment.t) : bool :=
  (Comment.created_at a <? Comment.created_at b)
  || ((Comment.created_at a =? Comment.created_at b) && (Comment.id a <=? Comment.id b)).

Fixpoint sort_insert (c : Comment.t) (sorted : list Comment.t) : list Comment.t :=
  match sorted with
  | [] => [c]
  | x :: rest => if comment_key_le x c then x :: sort_insert c rest else c :: x :: rest
  end.

(** [list.sort(key=...)], a stable sort. *)
Definition sort_comments (l : list Comment.t) : list Comment.t :=
  foldl (fun sorted c => sort_insert c sorted) [] l.

Definition sync_comments (zd_ticket : RemoteTicket.t) (local_ticket : Ticket.t)
    : M DB (list Comment.t) :=
  let user_map := [(RemoteTicket.requester zd_ticket, Ticket.requester local_ticket)] in
  let* remote_comments := lift (client_tickets_comments client (RemoteTicket.id zd_ticket)) in
  let* local_comments := sync_comments_loop remote_comments local_ticket user_map [] in
  ret (sort_comments local_comments).

Definition sync_ticket (remote_zd_ticket : RemoteTicket.t) : M DB (Ticket.t * bool) :=
  let* local_zd_user := update_or_create_local_zd_user_for_remote_zd_user
                          (RemoteTicket.requester remote_zd_ticket) in
  let* '(local_ticket, created) :=
    on_tickets (update_or_create (RemoteTicket.id remote_zd_ticket)
      {| Ticket.d_requester := ZendeskUser.id local_zd_user;
         Ticket.d_subject := RemoteTicket.subject remote_zd_ticket;
         Ticket.d_description := RemoteTicket.description remote_zd_ticket;
         Ticket.d_url := RemoteTicket.url remote_zd_ticket;
         Ticket.d_status :=
           Ticket.states_by_id_get (lower (RemoteTicket.status remote_zd_ticket));
         Ticket.d_custom_fields := RemoteTicket.custom_fields remote_zd_ticket;
         Ticket.d_tags := RemoteTicket.tags remote_zd_ticket;
         Ticket.d_created_at := RemoteTicket.created_at remote_zd_ticket;
         Ticket.d_updated_at := RemoteTicket.updated_at remote_zd_ticket |}) in
  let* _ := sync_comments remote_zd_ticket local_ticket in
  ret (local_ticket, created).

Definition sync_ticket_id (ticket_id : Z) : M DB (Ticket.t * bool) :=
  let* remote_zd_ticket := lift (client_tickets client ticket_id) in
  sync_ticket remote_zd_ticket.

End Service.

(** ** The [Event] model: the manager, [save] and the [json] property *)

(** [Event.objects.create(raw_data=data)]: an INSERT under a fresh key. *)
Definition Event_objects_create (raw_data : string) : M DB Event.t :=
  on_events (fun t =>
    let event := Event.mk (next_id t) raw_data None None None in
    (Ok event, Table (rows t ++ [event]) (next_id t + 1))).

(** [event.save()]: an UPDATE of the row with the instance's key, an INSERT
    when there is none. *)
Definition Event_save (event : Event.t) : M DB unit :=
  on_events (fun t =>
    if bool_decide (Event.id event ∈ Event.id <$> rows t)
    then (Ok tt, Table ((fun row => if bool_decide (Event.id row = Event.id event)
                                    then event else row) <$> rows t)
                       (next_id t))
    else (Ok tt, Table (rows t ++ [event]) (next_id t))).

(** The columns [save(update_fields=...)] accepts. *)
Definition Event_field_names : list string :=
  ["raw_data"; "remote_ticket_id"; "error"; "ticket"; "created_at"; "updated_at"]%string.

Definition Event_copy_fields (update_fields : list string) (event row : Event.t)
    : Event.t :=
  let has f := bool_decide (f ∈ update_fields) in
  Event.mk (Event.id row)
    (if has "raw_data"%string then Event.raw_data event else Event.raw_data row)
    (if has "remote_ticket_id"%string then Event.remote_ticket_id event
     else Event.remote_ticket_id row)
    (if has "error"%string then Event.error event else Event.error row)
    (if has "ticket"%string then Event.ticket event else Event.ticket row).

(** [event.save(update_fields=...)]: a name that is no column of the model
    is a [ValueError]; the UPDATE writes the named columns only, and it is
    a [DatabaseError] when it touches no row. *)
Definition Event_save_update_fields (event : Event.t) (update_fields : list string)
    : M DB unit :=
  match update_fields with
  | [] => ret tt
  | _ =>
      if forallb (fun f => bool_decide (f ∈ Event_field_names)) update_fields then
        on_events (fun t =>
          if bool_decide (Event.id event ∈ Event.id <$> rows t)
          then (Ok tt, Table ((fun row => if bool_decide (Event.id row = Event.id event)
                                          then Event_copy_fields update_fields event row
                                          else row) <$> rows t)
                             (next_id t))
          else (Raise DatabaseError, t))
      else raise (ValueError "The following fields do not exist in this model")
  end.

(** [event.json = data].  [models.py] declares [json] as a [@property] with
    a getter only, so the assignment raises [AttributeError] and the
    instance is left as it was. *)
Definition Event_set_json (event : Event.t) (data : json) : result Event.t :=
  Raise (AttributeError "can't set attribute").

(** ** [ZengoProcessor] *)

(** A ticket field as [model_to_dict] returns it. *)
Inductive pyval : Type :=
| PNone
| PInt (n : Z)
| PStr (s : string)
| PConstant (c : Ticket.states)
| PDateTime (t : Z).

#[global] Instance states_eq_dec : EqDecision Ticket.states.
Proof. solve_decision. Defined.
#[global] Instance pyval_eq_dec : EqDecision pyval.
Proof. solve_decision. Defined.

Definition of_option {A} (f : A -> pyval) (o : option A) : pyval :=
  match o with Some a => f a | None => PNone end.

(** [model_to_dict(ticket)]: every field of the model, in declaration
    order, a foreign key as the key it holds. *)
Definition model_to_dict (ticket : Ticket.t) : list (string * pyval) :=
  [ ("id", PInt (Ticket.id ticket));
    ("zendesk_id", PInt (Ticket.zendesk_id ticket));
    ("requester", PInt (Ticket.requester ticket));
    ("subject", of_option PStr (Ticket.subject ticket));
    ("description", of_option PStr (Ticket.description ticket));
    ("url", of_option PStr (Ticket.url ticket));
    ("status", of_option PConstant (Ticket.status ticket));
    ("custom_fields", of_option PStr (Ticket.custom_fields ticket));
    ("tags", of_option PStr (Ticket.tags ticket));
    ("created_at", PDateTime (Ticket.created_at ticket));
    ("updated_at", of_option PDateTime (Ticket.updated_at ticket)) ]%string.

(** [d.get(k)]: [None] for a key the dict lacks. *)
Definition py_get (d : list (string * pyval)) (k : string) : pyval :=
  default PNone (dict_get d k).

(** The [{"old": ..., "new": ...}] entry of one changed field. *)
Record change : Type := mkChange { old : pyval; new : pyval }.

Record updates : Type := mkUpdates
  { new_comments : list Comment.t;
    updated_fields : gmap string change }.

Record update_context : Type := mkContext
  { pre_ticket : option Ticket.t;
    post_ticket : option Ticket.t;
    pre_comments : list Comment.t;
    post_comments : list Comment.t }.

(** What goes out on the two signals. *)
Inductive signal : Type :=
| ticket_created (ticket : Ticket.t) (context : update_context)
| ticket_updated (ticket : Ticket.t) (updates : updates) (context : update_context).

(** The database together with the signals sent so far. *)
Record World : Type := mkWorld { db : DB; sent : list signal }.

Definition on_db {A} (c : M DB A) : M World A :=
  fun w => let '(r, d) := c (db w) in (r, mkWorld d (sent w)).

Definition send (s : signal) : M World unit :=
  fun w => (Ok tt, mkWorld (db w) (sent w ++ [s])).

(** [with transaction.atomic(): c]: when [c] raises, the database goes back
    to what it was on entry, and the exception goes on. *)
Definition atomic {A} (c : M World A) : M World A :=
  fun w => match c w with
           | (Ok a, w') => (Ok a, w')
           | (Raise e, w') => (Raise e, mkWorld (db w) (sent w'))
           end.

Definition get_new_comments (pre_ticket post_ticket : option Ticket.t)
    (pre_comments post_comments : list Comment.t) : list Comment.t :=
  if (List.length pre_comments <? List.length post_comments)%nat then
    let new_comment_ids : gset Z :=
      list_to_set (Comment.zendesk_id <$> post_comments)
      ∖ list_to_set (Comment.zendesk_id <$> pre_comments) in
    filter (fun c => Comment.zendesk_id c ∈ new_comment_ids) post_comments
  else [].

Definition get_updated_fields (pre_ticket post_ticket : option Ticket.t)
    (pre_comments post_comments : list Comment.t) : gmap string change :=
  match pre_ticket, post_ticket with
  | Some pre, Some post =>
      let pre_fields := model_to_dict pre in
      let post_fields := model_to_dict post in
      foldl (fun updates k =>
               if bool_decide (k ∈ ["created_at"; "updated_at"]%string) then updates
               else if bool_decide (py_get pre_fields k ≠ py_get post_fields k)
               then <[k := mkChange (py_get pre_fields k) (py_get post_fields k)]> updates
               else updates)
            ∅ (fst <$> pre_fields)
  | _, _ => ∅
  end.

Definition get_updates (context : update_context) : updates :=
  {| new_comments := get_new_comments (pre_ticket context) (post_ticket context)
                       (pre_comments context) (post_comments context);
     updated_fields := get_updated_fields (pre_ticket context) (post_ticket context)
                         (pre_comments context) (post_comments context) |}.

(** [ticket.comments.all()]. *)
Definition ticket_comments_all (ticket : Ticket.t) (d : DB) : list Comment.t :=
  filter (fun c => Comment.ticket c = Ticket.id ticket) (rows (comments d)).

Section Processor.

(** Python's own functions are parameters: [json.loads], [int] on a [str]
    ([None] where Python raises [ValueError]) and [traceback.format_exc];
    so is the client of the service that [get_service()] builds. *)
Variable json_loads : string -> result json.
Variable int_of_str : string -> option Z.
Variable format_exc : exn -> string.
Variable client : Client.

(** [int(v)] on a value out of [json.loads]. *)
Definition py_int (v : json) : result Z :=
  match v with
  | JInt n => Ok n
  | JBool b => Ok (if b then 1 else 0)
  | JFloat (FFinite n d) => Ok (Z.quot n (Z.pos d))
  | JFloat (FInf _) => Raise OverflowError
  | JFloat FNaN => Raise (ValueError "cannot convert float NaN to integer")
  | JStr s =>
      match int_of_str s with
      | Some n => Ok n
      | None => Raise (ValueError "invalid literal for int() with base 10")
      end
  | JNull | JList _ | JDict _ =>
      Raise (TypeError "int() argument must be a string or a number")
  end.

(** The [json] property of [Event]: [json.loads(self.raw_data)]. *)
Definition Event_json (event : Event.t) : result json :=
  json_loads (Event.raw_data event).

Definition store_event (data : string) : M DB Event.t :=
  let* event := Event_objects_create data in
  let* _ := Event_save event in
  let* data :=
    try_except (lift (json_loads data))
      (fun e => match e with
                | TypeError message | ValueError message => raise (ValidationError message)
                | _ => raise e
                end) in
  let* _ :=
    try_except (lift (rbind (getitem data "id") py_int))
      (fun e => match e with
                | KeyError _ => raise (ValidationError "`id` not found in data")
                | ValueError _ => raise (ValidationError "`id` not found in data")
                | _ => raise e
                end) in
  let* event := lift (Event_set_json event data) in
  let* _ := Event_save_update_fields event ["json"%string] in
  ret event.

Definition process_event (event : Event.t) : M World unit :=
  let* ticket_id := lift (rbind (rbind (Event_json event) (fun d => getitem d "id")) py_int) in
  let* pre_sync_ticket :=
    on_db (get_db (fun d => head (filter (fun t => Ticket.zendesk_id t = ticket_id)
                                         (rows (tickets d))))) in
  let* pre_sync_comments :=
    match pre_sync_ticket with
    | Some t => on_db (get_db (ticket_comments_all t))
    | None => ret []
    end in
  let* '(post_sync_ticket, created) := on_db (sync_ticket_id client ticket_id) in
  let* post_sync_comments := on_db (get_db (ticket_comments_all post_sync_ticket)) in
  let update_context :=
    {| pre_ticket := pre_sync_ticket;
       post_ticket := Some post_sync_ticket;
       pre_comments := pre_sync_comments;
       post_comments := post_sync_comments |} in
  if created && bool_decide (post_sync_comments = []) then
    send (ticket_created post_sync_ticket update_context)
  else
    send (ticket_updated post_sync_ticket (get_updates update_context) update_context).

Definition process_event_and_record_errors (event : Event.t) : M World unit :=
  try_except (atomic (process_event event))
    (fun e =>
       let event := Event.mk (Event.id event) (Event.raw_data event)
                             (Event.remote_ticket_id event)
                             (Some (format_exc e)) (Event.ticket event) in
       let* _ := on_db (Event_save_update_fields event ["error"%string]) in
       raise e).

Definition begin_processing_event (event : Event.t) : M World unit :=
  process_event_and_record_errors event.

End Processor.

(** ** Concrete data for the examples *)

Definition comment_a : Comment.t :=
  Comment.mk 1 501 1 1 (Some "first reply"%string) true 10.
Definition comment_b : Comment.t :=
  Comment.mk 2 502 1 2 (Some "second reply"%string) false 20.


(** [post] holds what [pre] holds in every field other than the two
    timestamps. *)
Definition same_but_timestamps (pre post : Ticket.t) : Prop :=
  Ticket.id post = Ticket.id pre
  ∧ Ticket.zendesk_id post = Ticket.zendesk_id pre
  ∧ Ticket.requester post = Ticket.requester pre
  ∧ Ticket.subject post = Ticket.subject pre
  ∧ Ticket.description post = Ticket.description pre
  ∧ Ticket.url post = Ticket.url pre
  ∧ Ticket.status post = Ticket.status pre
  ∧ Ticket.custom_fields post = Ticket.custom_fields pre
  ∧ Ticket.tags post = Ticket.tags pre.

Definition ticket_open : Ticket.t :=
  Ticket.mk 1 42 1 (Some "Printer on fire"%string) (Some "It burns"%string) None
            (Some Ticket.open) None None 100 (Some 100).
Definition ticket_open_later : Ticket.t :=
  Ticket.mk 1 42 1 (Some "Printer on fire"%string) (Some "It burns"%string) None
            (Some Ticket.open) None None 100 (Some 250).
Definition ticket_solved : Ticket.t :=
  Ticket.mk 1 42 1 (Some "Printer on fire"%string) (Some "It burns"%string) None
            (Some Ticket.solved) None None 100 (Some 250).

(** The four-tier match policy as the specification words it, to be
    compared with [get_remote_zd_user_for_local_user]: the external id,
    then the account's associated email addresses (the strength of the
    match being the address's verification state), then the email string
    on file, then no match. *)
Fixpoint spec_match_by_email_addresses (client : Client)
    (emails : list (string * bool)) : option (RemoteUser.t * bool) :=
  match emails with
  | [] => None
  | (address, verified) :: rest =>
      match client_search_email client address with
      | found :: _ => Some (found, verified)
      | [] => spec_match_by_email_addresses client rest
      end
  end.

Definition spec_four_tier_match (client : Client) (local_user : LocalUser.t)
    : option RemoteUser.t * bool :=
  match client_search_external_id client (LocalUser.id local_user) with
  | found :: _ => (Some found, true)
  | [] =>
      match spec_match_by_email_addresses client (LocalUser.emailaddress_set local_user) with
      | Some (found, verified) => (Some found, verified)
      | None =>
          match client_search_email client (LocalUser.email local_user) with
          | found :: _ => (Some found, false)
          | [] => (None, false)
          end
      end
  end.

Definition remote_ada : RemoteUser.t :=
  RemoteUser.mk 9001 (Some "Ada"%string) (Some "ada@example.org"%string) None 5.

(** A remote service that knows Ada by her email address only. *)
Definition client_email_only : Client :=
  {| client_tickets := fun _ => Raise (APIException "RecordNotFound");
     client_tickets_comments := fun _ => Ok [];
     client_search_external_id := fun _ => [];
     client_search_email := fun address =>
       if String.eqb address "ada@example.org" then [remote_ada] else [] |}.

(** A local account whose verified address is in [emailaddress_set] and
    whose own [email] field is empty. *)
Definition local_ada_verified_only : LocalUser.t :=
  LocalUser.mk 7 "Ada" "" [("ada@example.org"%string, true)].

Definition local_ada : LocalUser.t :=
  LocalUser.mk 7 "Ada" "ada@example.org" [].

(** The double-quote character and a few payloads. *)
Definition dq : string := String "034"%char EmptyString.

(** The payload with a field [id] holding the string 42. *)
Definition payload_id_42 : string :=
  ("{" ++ dq ++ "id" ++ dq ++ ": " ++ dq ++ "42" ++ dq ++ "}")%string.
(** The payload whose field [id] is [null]. *)
Definition payload_id_null : string :=
  ("{" ++ dq ++ "id" ++ dq ++ ": null}")%string.
(** The payload whose field [id] is the string abc. *)
Definition payload_id_abc : string :=
  ("{" ++ dq ++ "id" ++ dq ++ ": " ++ dq ++ "abc" ++ dq ++ "}")%string.
(** The payload with a field [subject] and no field [id]. *)
Definition payload_no_id : string :=
  ("{" ++ dq ++ "subject" ++ dq ++ ": " ++ dq ++ "hello" ++ dq ++ "}")%string.

(** [json.loads] on the payloads above, and as on undecodable text
    everywhere else. *)
Definition demo_json_loads (s : string) : result json :=
  if String.eqb s payload_id_42 then Ok (JDict [("id"%string, JStr "42")])
  else if String.eqb s payload_id_null then Ok (JDict [("id"%string, JNull)])
  else if String.eqb s payload_id_abc then Ok (JDict [("id"%string, JStr "abc")])
  else if String.eqb s payload_no_id then Ok (JDict [("subject"%string, JStr "hello")])
  else Raise (ValueError "No JSON object could be decoded").

Fixpoint digits_value (s : string) (acc : Z) : option Z :=
  match s with
  | EmptyString => Some acc
  | String c rest =>
      let n := nat_of_ascii c in
      if ((48 <=? n)%nat && (n <=? 57)%nat)%bool
      then digits_value rest (10 * acc + Z.of_nat (n - 48))
      else None
  end.

(** [int] on the strings of the examples: a non-empty run of decimal
    digits, with an optional minus sign. *)
Definition demo_int_of_str (s : string) : option Z :=
  match s with
  | EmptyString => None
  | String "-"%char EmptyString => None
  | String "-"%char rest => Z.opp <$> digits_value rest 0
  | _ => digits_value s 0
  end.

Definition demo_format_exc (e : exn) : string :=
  match e with
  | APIException m => ("Traceback (most recent call last): APIException: " ++ m)%string
  | IntegrityError => "Traceback (most recent call last): IntegrityError"%string
  | _ => "Traceback (most recent call last)"%string
  end.

Definition empty_table {R} : table R := Table [] 1.

Definition empty_db : DB :=
  mkDB empty_table empty_table empty_table empty_table [].

Definition remote_grace : RemoteUser.t :=
  RemoteUser.mk 9002 (Some "Grace"%string) (Some "grace@example.org"%string) (Some 7) 6.

(** Remote ticket 42, requested by Ada, with the status spelled [Open]. *)
Definition remote_ticket_42 : RemoteTicket.t :=
  RemoteTicket.mk 42 remote_ada (Some "Printer on fire"%string) (Some "It burns"%string)
    None "Open" None None 100 (Some 100).

(** A remote service holding ticket 42 and no comment on it. *)
Definition client_ticket_42 : Client :=
  {| client_tickets := fun i =>
       if i =? 42 then Ok remote_ticket_42 else Raise (APIException "RecordNotFound");
     client_tickets_comments := fun _ => Ok [];
     client_search_external_id := fun _ => [];
     client_search_email := fun _ => [] |}.

(** A remote service that is down. *)
Definition client_down : Client :=
  {| client_tickets := fun _ => Raise (APIException "Service unavailable");
     client_tickets_comments := fun _ => Raise (APIException "Service unavailable");
     client_search_external_id := fun _ => [];
     client_search_email := fun _ => [] |}.

(** The stored event of the payload with [id] 42, as a first run that
    failed left it. *)
Definition event_42 : Event.t :=
  Event.mk 1 payload_id_42 None (Some "Traceback of an earlier attempt"%string) None.

Definition world_with_event_42 : World :=
  mkWorld (mkDB empty_table empty_table empty_table (Table [event_42] 2) []) [].

(** Ticket 42 as the first sync stores it. *)
Definition local_ticket_42 : Ticket.t :=
  Ticket.mk 1 42 1 (Some "Printer on fire"%string) (Some "It burns"%string) None
            (Some Ticket.open) None None 100 (Some 100).
Definition local_ada_cached : ZendeskUser.t :=
  ZendeskUser.mk 1 9001 (Some "Ada"%string) (Some "ada@example.org"%string) None 5.

(** The ticket id [process_event] reads off the event:
    [int(event.json["id"])]. *)
Definition event_ticket_id (json_loads : string -> result json)
    (int_of_str : string -> option Z) (event : Event.t) : result Z :=
  rbind (rbind (Event_json json_loads event) (fun d => getitem d "id"))
        (py_int int_of_str).

(** The snapshot [process_event] takes before the sync. *)
Definition pre_sync_ticket_of (ticket_id : Z) (d : DB) : option Ticket.t :=
  head (filter (fun t => Ticket.zendesk_id t = ticket_id) (rows (tickets d))).
Definition pre_sync_comments_of (ticket_id : Z) (d : DB) : list Comment.t :=
  match pre_sync_ticket_of ticket_id d with
  | Some t => ticket_comments_all t d
  | None => []
  end.

(** [d'] has the events and the local accounts of [d]: the sync writes to
    the three tables of users, tickets and comments only. *)
Definition same_events (d d' : DB) : Prop :=
  events d' = events d ∧ local_users d' = local_users d.

(** The database with [error] written on the rows of the event [event]. *)
Definition with_error_recorded (event : Event.t) (error : string) (d : DB) : DB :=
  mkDB (users d) (tickets d) (comments d)
       (Table ((fun row => if bool_decide (Event.id row = Event.id event)
                           then Event.mk (Event.id row) (Event.raw_data row)
                                         (Event.remote_ticket_id row) (Some error)
                                         (Event.ticket row)
                           else row) <$> rows (events d))
              (next_id (events d)))
       (local_users d).

(** The id of a status constant. *)
Definition state_id (st : Ticket.states) : string :=
  match st with
  | Ticket.new => "new"
  | Ticket.open => "open"
  | Ticket.pending => "pending"
  | Ticket.hold => "hold"
  | Ticket.solved => "solved"
  | Ticket.closed => "closed"
  end.

(** Remote ticket 43, in a status the model does not know. *)
Definition remote_ticket_archived : RemoteTicket.t :=
  RemoteTicket.mk 43 remote_ada (Some "Old printer"%string) None None "Archived"
    None None 100 None.

(** ** Well-formed tables *)

(** What the three upserts of the service have in common: a new instance
    carries the key it is given and the lookup it was made for, and
    assigning the defaults, which name every column but the key and the
    lookup, gives the instance one would build from them. *)
Class ModelLaws (R K V : Type) `{Model R K V} : Prop := mkModelLaws
  { pk_build : ∀ i k v, pk (build i k v) = i;
    key_build : ∀ i k v, key_of (build i k v) = k;
    assign_build : ∀ v r, assign v r = build (pk r) (key_of r) v }.

(** The lookup and the primary key of each row, in table order. *)
Definition index {R K V} `{Model R K V} (t : table R) : list (K * Z) :=
  (fun r => (key_of r, pk r)) <$> rows t.

(** A table that satisfies its schema: primary keys are distinct and below
    the counter, and the unique column holds distinct values. *)
Definition table_wf {R K V} `{Model R K V} (t : table R) : Prop :=
  NoDup (pk <$> rows t)
  ∧ NoDup ((fun r => unique_of (key_of r)) <$> rows t)
  ∧ Forall (fun r => pk r < next_id t) (rows t).

Definition db_wf (d : DB) : Prop :=
  table_wf (users d) ∧ table_wf (tickets d) ∧ table_wf (comments d).

(** ** Running the sync a second time

    [F] is the table the first run ends with, [a] a table the first run
    goes through and [b] the table the second run has reached at the same
    point, [T] being the lookups upserted so far: [b] has the index of [F];
    its rows of a lookup in [T] are rows of [a], and its other rows are
    still those of [F]. *)
Definition sim {R K V} `{Model R K V} (F : table R) (T : list K) (a b : table R)
    : Prop :=
  index b = index F
  ∧ next_id b = next_id F
  ∧ ∀ r, r ∈ rows b -> (key_of r ∈ T -> r ∈ rows a) ∧ (key_of r ∉ T -> r ∈ rows F).

(** The defaults [update_or_create_local_zd_user_for_remote_zd_user] hands
    to the upsert of [remote]. *)
Definition user_defaults (remote : RemoteUser.t) (d : DB) : ZendeskUser.defaults :=
  {| ZendeskUser.d_user :=
       LocalUser.id <$> get_local_user_for_external_id (RemoteUser.external_id remote) d;
     ZendeskUser.d_email := RemoteUser.email remote;
     ZendeskUser.d_created_at := RemoteUser.created_at remote;
     ZendeskUser.d_name := RemoteUser.name remote |}.

(** The database [a] of the first run on its way to [F]: indexes only grow
    at their end, and the events and the local accounts do not change. *)
Definition ext_db (a F : DB) : Prop :=
  index (users a) `prefix_of` index (users F)
  ∧ index (tickets a) `prefix_of` index (tickets F)
  ∧ index (comments a) `prefix_of` index (comments F)
  ∧ events a = events F
  ∧ local_users a = local_users F.

(** The lookups upserted so far, table by table. *)
Record touched : Type := mkTouched
  { t_users : list Z; t_tickets : list Z; t_comments : list (Z * Z) }.

Definition sim_db (F : DB) (T : touched) (a b : DB) : Prop :=
  sim (users F) (t_users T) (users a) (users b)
  ∧ sim (tickets F) (t_tickets T) (tickets a) (tickets b)
  ∧ sim (comments F) (t_comments T) (comments a) (comments b)
  ∧ events b = events F
  ∧ local_users b = local_users F.

(** Two comments on remote ticket 42: one by the requester, one by Grace. *)
Definition remote_comment_501 : RemoteComment.t :=
  RemoteComment.mk 501 remote_ada (Some "first reply"%string) true 110.
Definition remote_comment_502 : RemoteComment.t :=
  RemoteComment.mk 502 remote_grace (Some "second reply"%string) false 120.

(** Remote ticket 43, open, requested by Grace. *)
Definition remote_ticket_43 : RemoteTicket.t :=
  RemoteTicket.mk 43 remote_grace (Some "Scanner jam"%string) None None "open"
    None None 130 None.

(** A remote service with tickets 42 and 43.  Ticket 42 has the two
    comments; ticket 43 is handed out with comment 501 as well. *)
Definition client_two_tickets : Client :=
  {| client_tickets := fun i =>
       if i =? 42 then Ok remote_ticket_42
       else if i =? 43 then Ok remote_ticket_43
       else Raise (APIException "RecordNotFound");
     client_tickets_comments := fun i =>
       if i =? 42 then Ok [remote_comment_501; remote_comment_502]
       else if i =? 43 then Ok [remote_comment_501]
       else Ok [];
     client_search_external_id := fun _ => [];
     client_search_email := fun _ => [] |}.

(** A database with the local account 7 and nothing synced yet. *)
Definition db_local_ada : DB :=
  mkDB empty_table empty_table empty_table empty_table [local_ada].

Definition local_grace_cached : ZendeskUser.t :=
  ZendeskUser.mk 2 9002 (Some "Grace"%string) (Some "grace@example.org"%string) (Some 7) 6.
Definition local_comment_501 : Comment.t :=
  Comment.mk 1 501 1 1 (Some "first reply"%string) true 110.
Definition local_comment_502 : Comment.t :=
  Comment.mk 2 502 1 2 (Some "second reply"%string) false 120.

(** The database after ticket 42 is synced into [db_local_ada]. *)
Definition db_ticket_42_synced : DB :=
  mkDB (Table [local_ada_cached; local_grace_cached] 3)
       (Table [local_ticket_42] 2)
       (Table [local_comment_501; local_comment_502] 3)
       empty_table [local_ada].

(** ** Further notions for the properties of the synchroniser *)

(** The order of [local_comments.sort]: by [(created_at, id)]. *)
Definition comment_le (a b : Comment.t) : Prop := comment_key_le a b = true.

(** A local comment that mirrors a remote one under the ticket [ticket]. *)
Definition mirrors (ticket : Z) (remote : RemoteComment.t) (c : Comment.t) : Prop :=
  Comment.zendesk_id c = RemoteComment.id remote
  ∧ Comment.ticket c = ticket
  ∧ Comment.body c = RemoteComment.body remote
  ∧ Comment.public c = RemoteComment.public remote
  ∧ Comment.created_at c = RemoteComment.created_at remote.

(** A computation that, on every path, leaves a database that satisfies
    the schema in that state, with every row it found still there under
    its primary key and lookup, new rows at the end, and the events and
    local accounts untouched. *)
Definition keeps_schema {A} (c : M DB A) : Prop :=
  ∀ d, db_wf d -> db_wf (snd (c d)) ∧ ext_db d (snd (c d)).

(** A local ticket that carries what the remote ticket holds. *)
Definition ticket_mirrors (remote : RemoteTicket.t) (t : Ticket.t) : Prop :=
  Ticket.zendesk_id t = RemoteTicket.id remote
  ∧ Ticket.subject t = RemoteTicket.subject remote
  ∧ Ticket.description t = RemoteTicket.description remote
  ∧ Ticket.url t = RemoteTicket.url remote
  ∧ Ticket.status t = Ticket.states_by_id_get (lower (RemoteTicket.status remote))
  ∧ Ticket.custom_fields t = RemoteTicket.custom_fields remote
  ∧ Ticket.tags t = RemoteTicket.tags remote
  ∧ Ticket.created_at t = RemoteTicket.created_at remote
  ∧ Ticket.updated_at t = RemoteTicket.updated_at remote.

(** A cached identity that carries what the remote user holds, linked to
    the local account whose id is the remote user's external id, if there
    is one. *)
Definition user_mirrors (remote : RemoteUser.t) (d : DB) (u : ZendeskUser.t) : Prop :=
  ZendeskUser.zendesk_id u = RemoteUser.id remote
  ∧ ZendeskUser.name u = RemoteUser.name remote
  ∧ ZendeskUser.email u = RemoteUser.email remote
  ∧ ZendeskUser.created_at u = RemoteUser.created_at remote
  ∧ ZendeskUser.user u
    = LocalUser.id <$> get_local_user_for_external_id (RemoteUser.external_id remote) d.

(** The payload with a field [id] holding the number 43, its decoding, and
    the event stored for it in a database where ticket 42 is synced. *)
Definition payload_id_43 : string :=
  ("{" ++ dq ++ "id" ++ dq ++ ": 43}")%string.
Definition demo_json_loads_43 (s : string) : result json :=
  if String.eqb s payload_id_43 then Ok (JDict [("id"%string, JInt 43)])
  else demo_json_loads s.
Definition event_43 : Event.t := Event.mk 1 payload_id_43 None None None.
Definition world_with_event_43 : World :=
  mkWorld (mkDB (users db_ticket_42_synced) (tickets db_ticket_42_synced)
                (comments db_ticket_42_synced) (Table [event_43] 2) [local_ada]) [].
(** The same world without the row of the event. *)
Definition world_without_event_43 : World :=
  mkWorld (mkDB (users db_ticket_42_synced) (tickets db_ticket_42_synced)
                (comments db_ticket_42_synced) empty_table [local_ada]) [].

(** ** When a sync goes through *)

(** The primary key under which [sync_ticket] keeps the ticket of remote id
    [ticket_id]: that of the row the table has for it, or else the key the
    INSERT will take. *)
Definition local_ticket_pk (ticket_id : Z) (d : DB) : Z :=
  match pre_sync_ticket_of ticket_id d with
  | Some t => Ticket.id t
  | None => next_id (tickets d)
  end.

(** None of the comments to sync is held by another ticket: a stored
    comment with the remote id of one of [remote_comments] is under the
    ticket of primary key [ticket]. *)
Definition comments_storable (remote_comments : list RemoteComment.t) (ticket : Z)
    (d : DB) : Prop :=
  ∀ c, c ∈ rows (comments d) ->
       Comment.zendesk_id c ∈ RemoteComment.id <$> remote_comments ->
       Comment.ticket c = ticket.

(** Every comment to sync has its row under the ticket of primary key
    [ticket] already. *)
Definition comments_present (remote_comments : list RemoteComment.t) (ticket : Z)
    (d : DB) : Prop :=
  ∀ rc, rc ∈ remote_comments ->
        ∃ c, c ∈ rows (comments d)
             ∧ Comment.zendesk_id c = RemoteComment.id rc
             ∧ Comment.ticket c = ticket.

(** The remote service after the first comment on ticket 42 was edited. *)
Definition remote_comment_501_edited : RemoteComment.t :=
  RemoteComment.mk 501 remote_ada (Some "first reply, edited"%string) true 110.
Definition client_comment_edited : Client :=
  {| client_tickets := client_tickets client_two_tickets;
     client_tickets_comments := fun i =>
       if i =? 42 then Ok [remote_comment_501_edited; remote_comment_502]
       else client_tickets_comments client_two_tickets i;
     client_search_external_id := fun _ => [];
     client_search_email := fun _ => [] |}.
Definition local_comment_501_edited : Comment.t :=
  Comment.mk 1 501 1 1 (Some "first reply, edited"%string) true 110.

(** The database of [db_ticket_42_synced] once the edit is synced. *)
Definition db_ticket_42_resynced : DB :=
  mkDB (Table [local_ada_cached; local_grace_cached] 3)
       (Table [local_ticket_42] 2)
       (Table [local_comment_501_edited; local_comment_502] 3)
       empty_table [local_ada].

(** Ticket 43 as its row would be, next to that of ticket 42. *)
Definition local_ticket_43 : Ticket.t :=
  Ticket.mk 2 43 2 (Some "Scanner jam"%string) None None (Some Ticket.open) None None
            130 None.

(** What the sync of the ticket in the unknown status leaves of an empty
    database: the requester, and no ticket. *)
Definition db_only_ada_cached : DB :=
  mkDB (Table [local_ada_cached] 2) empty_table empty_table empty_table [].
(** * Properties *)

(** ** Lists *)

Lemma filter_ext_elem {A} (P Q : A -> Prop) `{!∀ x, Decision (P x)}
    `{!∀ x, Decision (Q x)} (l : list A) :
  (∀ x, x ∈ l -> (P x <-> Q x)) -> filter P l = filter Q l.
Proof.
  induction l as [|a l IH]; intros HPQ; [done|].
  rewrite !filter_cons.
  rewrite IH by (intros x Hx; apply HPQ; by right).
  assert (P a <-> Q a) as Ha by (apply HPQ; by left).
  destruct (decide (P a)), (decide (Q a)); tauto || done.
Qed.

(** ** The diff of the comment lists *)

(** C4. [get_new_comments] returns the comments of [post] whose remote id
    no comment of [pre] has, in the order of [post], when [post] is
    strictly longer than [pre]; it returns the empty list when [post] is as
    long as [pre] or shorter; and from [[c1]] to [[c1; c2]], [c2] having a
    remote id of its own, it returns exactly [[c2]]. *)
Theorem get_new_comments_correct :
  ∀ (pre_ticket post_ticket : option Ticket.t) (pre post : list Comment.t)
    (c1 c2 : Comment.t),
    ((List.length post > List.length pre)%nat ->
     get_new_comments pre_ticket post_ticket pre post
     = filter (fun c => Comment.zendesk_id c ∉ Comment.zendesk_id <$> pre) post)
    ∧ ((List.length post <= List.length pre)%nat ->
       get_new_comments pre_ticket post_ticket pre post = [])
    ∧ (Comment.zendesk_id c2 ≠ Comment.zendesk_id c1 ->
       get_new_comments pre_ticket post_ticket [c1] [c1; c2] = [c2]).
Proof.
  intros pre_ticket post_ticket pre post c1 c2.
  assert (∀ p q : list Comment.t, (List.length q > List.length p)%nat ->
            get_new_comments pre_ticket post_ticket p q
            = filter (fun c => Comment.zendesk_id c ∉ Comment.zendesk_id <$> p) q)
    as Hgt.
  { intros p q Hlen. unfold get_new_comments.
    destruct (Nat.ltb_spec (List.length p) (List.length q)) as [_|Hle]; [|lia].
    apply filter_ext_elem. intros c Hc.
    rewrite elem_of_difference, !elem_of_list_to_set.
    split; [tauto|]. intros Hnot. split; [|done].
    by apply list_elem_of_fmap_2. }
  split; [apply Hgt|]. split.
  - intros Hlen. unfold get_new_comments.
    destruct (Nat.ltb_spec (List.length pre) (List.length post)) as [Hlt|_]; [lia|done].
  - intros Hne. rewrite Hgt by (simpl; lia).
    rewrite filter_cons_False, filter_cons_True, filter_nil; [done| |].
    + rewrite list_fmap_singleton, list_elem_of_singleton. done.
    + intros Hin. apply Hin. simpl. by left.
Qed.

Lemma get_new_comments_correct_witness :
  get_new_comments None None [comment_a] [comment_a; comment_b] = [comment_b]
  ∧ get_new_comments None None [comment_a; comment_b] [comment_a; comment_b] = [].
Proof.
  destruct (get_new_comments_correct None None [comment_a; comment_b]
              [comment_a; comment_b] comment_a comment_b) as (_ & Hle & Hex).
  split.
  - apply Hex. vm_compute. discriminate.
  - apply Hle. simpl. lia.
Defined.

(** ** The diff of the ticket fields *)

Section UpdatedFields.

Variables pre_fields post_fields : list (string * pyval).

Let step (updates : gmap string change) (k : string) : gmap string change :=
  if bool_decide (k ∈ ["created_at"; "updated_at"]%string) then updates
  else if bool_decide (py_get pre_fields k ≠ py_get post_fields k)
  then <[k := mkChange (py_get pre_fields k) (py_get post_fields k)]> updates
  else updates.

Lemma updated_fields_fold (ks : list string) (acc : gmap string change) (k : string) :
  (foldl step acc ks) !! k
  = (if bool_decide (k ∈ ks ∧ (k ∉ ["created_at"; "updated_at"]%string)
                     ∧ py_get pre_fields k ≠ py_get post_fields k)
    then Some (mkChange (py_get pre_fields k) (py_get post_fields k))
    else acc !! k).
Proof.
  revert acc. induction ks as [|k0 ks IH]; intros acc.
  - rewrite bool_decide_eq_false_2; [done|]. intros [Hin _]. by apply elem_of_nil in Hin.
  - simpl foldl. rewrite IH.
    destruct (decide (k ∈ ks ∧ (k ∉ ["created_at"; "updated_at"]%string)
                      ∧ py_get pre_fields k ≠ py_get post_fields k))
      as [Hyes|Hno].
    + rewrite !bool_decide_eq_true_2; [done| |done].
      destruct Hyes as (? & ? & ?). split; [by right|done].
    + rewrite (bool_decide_eq_false_2 _ Hno). unfold step.
      assert (k ≠ k0 -> ¬ (k ∈ k0 :: ks ∧ (k ∉ ["created_at"; "updated_at"]%string)
                           ∧ py_get pre_fields k ≠ py_get post_fields k)) as Hother.
      { intros Hne (Hin & ? & ?). apply elem_of_cons in Hin as [->|Hin]; [done|].
        by apply Hno. }
      destruct (decide (k0 ∈ ["created_at"; "updated_at"]%string)) as [Hts|Hts].
      { rewrite (bool_decide_eq_true_2 _ Hts).
        rewrite bool_decide_eq_false_2; [done|].
        intros (Hin & Hnts & Hd). apply elem_of_cons in Hin as [->|Hin]; [done|].
        by apply Hno. }
      rewrite (bool_decide_eq_false_2 _ Hts).
      destruct (decide (py_get pre_fields k0 ≠ py_get post_fields k0)) as [Hd|Hd].
      { rewrite (bool_decide_eq_true_2 _ Hd).
        destruct (decide (k = k0)) as [->|Hne].
        - rewrite lookup_insert_eq. rewrite bool_decide_eq_true_2; [done|].
          split; [by left|done].
        - rewrite lookup_insert_ne by done.
          by rewrite (bool_decide_eq_false_2 _ (Hother Hne)). }
      rewrite (bool_decide_eq_false_2 _ Hd).
      rewrite bool_decide_eq_false_2; [done|].
      intros (Hin & ? & ?). apply elem_of_cons in Hin as [->|Hin]; [done|].
      by apply Hno.
Qed.

End UpdatedFields.

(** C8. With both snapshots present, the diff holds an entry for a field
    exactly when the field is one of the model's other than [created_at]
    and [updated_at] and its two values differ, and the entry is the pair
    of the old and the new value; snapshots that differ in a timestamp only
    give the empty map; and so does an absent snapshot on either side. *)
Theorem get_updated_fields_correct :
  ∀ (pre post : Ticket.t) (absent_or_not : option Ticket.t)
    (pre_comments post_comments : list Comment.t),
    (∀ (k : string) (ch : change),
        get_updated_fields (Some pre) (Some post) pre_comments post_comments !! k = Some ch
        <-> k ∈ fst <$> model_to_dict pre
            ∧ (k ∉ ["created_at"; "updated_at"]%string)
            ∧ ch = mkChange (py_get (model_to_dict pre) k) (py_get (model_to_dict post) k)
            ∧ old ch ≠ new ch)
    ∧ (same_but_timestamps pre post ->
       get_updated_fields (Some pre) (Some post) pre_comments post_comments = ∅)
    ∧ get_updated_fields None absent_or_not pre_comments post_comments = ∅
    ∧ get_updated_fields absent_or_not None pre_comments post_comments = ∅.
Proof.
  intros pre post o pre_comments post_comments.
  assert (∀ (k : string) (ch : change),
        get_updated_fields (Some pre) (Some post) pre_comments post_comments !! k = Some ch
        <-> k ∈ fst <$> model_to_dict pre
            ∧ (k ∉ ["created_at"; "updated_at"]%string)
            ∧ ch = mkChange (py_get (model_to_dict pre) k) (py_get (model_to_dict post) k)
            ∧ old ch ≠ new ch) as Hentry.
  { intros k ch. unfold get_updated_fields.
    rewrite updated_fields_fold, lookup_empty. case_bool_decide as Hc.
    - destruct Hc as (Hin & Hts & Hne). split.
      + intros [= <-]. done.
      + intros (_ & _ & -> & _). done.
    - split; [done|]. intros (Hin & Hts & -> & Hne). simpl in Hne. tauto. }
  split; [exact Hentry|]. split; [|split].
  - intros (Hid & Hzid & Hreq & Hsub & Hdesc & Hurl & Hst & Hcf & Htags).
    apply map_empty. intros k.
    destruct (get_updated_fields (Some pre) (Some post) pre_comments post_comments !! k)
      as [ch|] eqn:Hk; [|done].
    apply Hentry in Hk as (Hin & Hts & -> & Hne). exfalso. simpl in Hne.
    unfold model_to_dict in Hin. simpl in Hin.
    repeat (apply elem_of_cons in Hin as [->|Hin]);
      try (by apply elem_of_nil in Hin);
      try (apply Hne; unfold py_get, model_to_dict; simpl; congruence);
      apply Hts; rewrite !elem_of_cons; auto.
  - done.
  - by destruct o.
Qed.

Lemma get_updated_fields_correct_witness :
  get_updated_fields (Some ticket_open) (Some ticket_open_later) [] [] = ∅
  ∧ get_updated_fields (Some ticket_open) (Some ticket_solved) [] [] !! "status"%string
    = Some (mkChange (PConstant Ticket.open) (PConstant Ticket.solved)).
Proof.
  split.
  - destruct (get_updated_fields_correct ticket_open ticket_open_later None [] [])
      as (_ & Hsame & _).
    apply Hsame. unfold same_but_timestamps. simpl. tauto.
  - destruct (get_updated_fields_correct ticket_open ticket_solved None [] [])
      as (Hentry & _).
    apply Hentry. split; [|split; [|split]].
    + unfold model_to_dict. simpl. rewrite !elem_of_cons. auto 10.
    + rewrite !elem_of_cons, elem_of_nil. intros [?|[?|?]]; done.
    + reflexivity.
    + simpl. discriminate.
Defined.

(** ** Resolving a local account to a remote user *)

(** C9, as the code has it.  The resolution has three tiers, in order: a
    user found by external id is returned with the flag [true]; otherwise,
    when the account's [email] is not empty, a user found by that email is
    returned with the flag [false]; otherwise the answer is no user and
    [false].  The account's associated email addresses are never
    consulted. *)
Theorem get_remote_zd_user_three_tiers :
  ∀ (client : Client) (local_user : LocalUser.t),
    get_remote_zd_user_for_local_user client local_user
    = match client_search_external_id client (LocalUser.id local_user) with
      | found :: _ => (Some found, true)
      | [] =>
          if String.eqb (LocalUser.email local_user) "" then (None, false)
          else match client_search_email client (LocalUser.email local_user) with
               | found :: _ => (Some found, false)
               | [] => (None, false)
               end
      end.
Proof.
  intros client local_user. unfold get_remote_zd_user_for_local_user,
    get_local_user_external_id.
  destruct (client_search_external_id client (LocalUser.id local_user)); [|done].
  simpl. destruct (String.eqb (LocalUser.email local_user) ""); [done|].
  simpl. by destruct (client_search_email client (LocalUser.email local_user)).
Qed.

(** C9, as stated, fails: an account known to the remote side by a verified
    associated address only is matched by the four-tier policy and not by
    the code. *)
Lemma four_tier_policy_not_implemented :
  spec_four_tier_match client_email_only local_ada_verified_only = (Some remote_ada, true)
  ∧ get_remote_zd_user_for_local_user client_email_only local_ada_verified_only
    = (None, false).
Proof. split; reflexivity. Qed.

(** ** The event store *)

Section StoreEvent.

Variable json_loads : string -> result json.
Variable int_of_str : string -> option Z.

(** The database [store_event] leaves behind is, on every path, the one
    after the INSERT and the first [save]. *)
Lemma store_event_db (data : string) (d : DB) :
  snd (store_event json_loads int_of_str data d)
  = snd ((let* event := Event_objects_create data in Event_save event) d).
Proof.
  unfold store_event, bind, try_except, lift, raise, ret, Event_set_json,
    Event_objects_create, Event_save, on_events. simpl.
  case_bool_decide; simpl.
  - destruct (json_loads data) as [j|[]]; simpl; try done.
    destruct (rbind (getitem j "id") (py_int int_of_str)) as [n|[]]; done.
  - destruct (json_loads data) as [j|[]]; simpl; try done.
    destruct (rbind (getitem j "id") (py_int int_of_str)) as [n|[]]; done.
Qed.

(** The raw payload is in the table when [store_event] is over, whatever
    the outcome. *)
Lemma store_event_persists (data : string) (d : DB) :
  Event.mk (next_id (events d)) data None None None
    ∈ rows (events (snd (store_event json_loads int_of_str data d))).
Proof.
  rewrite store_event_db.
  unfold bind, Event_objects_create, Event_save, on_events. simpl.
  case_bool_decide as Hin; simpl.
  - apply list_elem_of_fmap. exists (Event.mk (next_id (events d)) data None None None).
    split.
    + simpl. by rewrite bool_decide_eq_true_2.
    + apply elem_of_app. right. by left.
  - exfalso. apply Hin. rewrite fmap_app. apply elem_of_app. right. by left.
Qed.

(** What [store_event] answers, path by path. *)
Lemma store_event_result (data : string) (d : DB) :
  fst (store_event json_loads int_of_str data d)
  = match json_loads data with
    | Raise (TypeError m) | Raise (ValueError m) => Raise (ValidationError m)
    | Raise e => Raise e
    | Ok j =>
        match rbind (getitem j "id") (py_int int_of_str) with
        | Raise (KeyError _) | Raise (ValueError _) =>
            Raise (ValidationError "`id` not found in data")
        | Raise e => Raise e
        | Ok _ => Raise (AttributeError "can't set attribute")
        end
    end.
Proof.
  unfold store_event, bind, try_except, lift, raise, ret, Event_set_json,
    Event_objects_create, Event_save, on_events. simpl.
  case_bool_decide; simpl.
  - destruct (json_loads data) as [j|[]]; simpl; try done.
    destruct (rbind (getitem j "id") (py_int int_of_str)) as [n|[]]; done.
  - destruct (json_loads data) as [j|[]]; simpl; try done.
    destruct (rbind (getitem j "id") (py_int int_of_str)) as [n|[]]; done.
Qed.

End StoreEvent.

(** C1 fails on the code.  On the payload with [id] 42, [store_event] has
    the raw payload in the table and then raises [AttributeError] at
    [event.json = data]: no event is returned, and the stored row has no
    parsed ticket id. *)
Theorem store_event_valid_payload_raises :
  demo_json_loads payload_id_42 = Ok (JDict [("id"%string, JStr "42")])
  ∧ rbind (getitem (JDict [("id"%string, JStr "42")]) "id") (py_int demo_int_of_str) = Ok 42
  ∧ store_event demo_json_loads demo_int_of_str payload_id_42 empty_db
    = (Raise (AttributeError "can't set attribute"),
       mkDB empty_table empty_table empty_table
            (Table [Event.mk 1 payload_id_42 None None None] 2) []).
Proof. repeat split; vm_compute; reflexivity. Qed.

(** C7 fails on the code.  On the payload whose [id] is [null] the raw
    payload is in the table, and what [store_event] raises is the
    [TypeError] of [int(None)], not the validation error of a missing
    ticket id. *)
Theorem store_event_null_id_raises_type_error :
  demo_json_loads payload_id_null = Ok (JDict [("id"%string, JNull)])
  ∧ store_event demo_json_loads demo_int_of_str payload_id_null empty_db
    = (Raise (TypeError "int() argument must be a string or a number"),
       mkDB empty_table empty_table empty_table
            (Table [Event.mk 1 payload_id_null None None None] 2) []).
Proof. repeat split; vm_compute; reflexivity. Qed.

(** The part of C7 that holds: a payload without [id], or with an [id]
    that is a string [int] rejects, gets the validation error, the payload
    being in the table. *)
Lemma store_event_missing_or_bad_id (json_loads : string -> result json)
    (int_of_str : string -> option Z) (data : string) (j : json) (d : DB) :
  json_loads data = Ok j ->
  (∃ k, getitem j "id" = Raise (KeyError k))
  ∨ (∃ s, getitem j "id" = Ok (JStr s) ∧ int_of_str s = None) ->
  fst (store_event json_loads int_of_str data d)
  = Raise (ValidationError "`id` not found in data").
Proof.
  intros Hj Hid. rewrite store_event_result, Hj.
  destruct Hid as [[k Hk]|(s & Hs & Hint)].
  - by rewrite Hk.
  - rewrite Hs. simpl. by rewrite Hint.
Qed.

(** ** The reconciliation pipeline *)

Section Pipeline.

Variable json_loads : string -> result json.
Variable int_of_str : string -> option Z.
Variable format_exc : exn -> string.
Variable client : Client.

Lemma process_event_sync_ok (event : Event.t) (w : World) (ticket_id : Z)
    (post : Ticket.t) (created : bool) (d' : DB) :
  event_ticket_id json_loads int_of_str event = Ok ticket_id ->
  sync_ticket_id client ticket_id (db w) = (Ok (post, created), d') ->
  process_event json_loads int_of_str client event w
  = let context := mkContext (pre_sync_ticket_of ticket_id (db w)) (Some post)
                     (pre_sync_comments_of ticket_id (db w)) (ticket_comments_all post d') in
    (Ok tt,
     mkWorld d' (sent w ++ [if created && bool_decide (ticket_comments_all post d' = [])
                            then ticket_created post context
                            else ticket_updated post (get_updates context) context])).
Proof.
  intros Hid Hsync. unfold event_ticket_id in Hid.
  unfold process_event, bind, lift, on_db, get_db, ret. rewrite Hid. simpl.
  unfold pre_sync_comments_of, pre_sync_ticket_of.
  destruct (head (filter (fun t => Ticket.zendesk_id t = ticket_id) (rows (tickets (db w)))))
    as [pre|]; simpl; rewrite Hsync; simpl;
    by destruct (created && bool_decide (ticket_comments_all post d' = [])).
Qed.

(** An event whose processing raises sends no signal. *)
Lemma process_event_raise_sends_nothing (event : Event.t) (w w' : World) (e : exn) :
  process_event json_loads int_of_str client event w = (Raise e, w') ->
  sent w' = sent w.
Proof.
  unfold process_event, bind, lift, on_db, get_db, ret, send.
  destruct (rbind _ _) as [ticket_id|e0]; simpl; [|by intros [= _ <-]].
  destruct (head _) as [pre|]; simpl;
    destruct (sync_ticket_id client ticket_id (db w)) as [[[post created]|e1] d'];
    simpl; try (by intros [= _ <-]);
    by destruct (created && _).
Qed.

End Pipeline.

(** C3. For an event whose ticket id is read and whose sync goes through,
    the pipeline sends exactly one signal: [ticket_created] when the sync
    created the ticket row and the ticket has no comment after the sync,
    and [ticket_updated], carrying the computed updates, in every other
    case. *)
Theorem process_event_sends_exactly_one_signal :
  ∀ (json_loads : string -> result json) (int_of_str : string -> option Z)
    (client : Client) (event : Event.t) (w : World) (ticket_id : Z)
    (post : Ticket.t) (created : bool) (d' : DB),
    event_ticket_id json_loads int_of_str event = Ok ticket_id ->
    sync_ticket_id client ticket_id (db w) = (Ok (post, created), d') ->
    let post_comments := ticket_comments_all post d' in
    let context := mkContext (pre_sync_ticket_of ticket_id (db w)) (Some post)
                     (pre_sync_comments_of ticket_id (db w)) post_comments in
    ∃ s : signal,
      process_event json_loads int_of_str client event w
      = (Ok tt, mkWorld d' (sent w ++ [s]))
      ∧ (s = ticket_created post context <-> created = true ∧ post_comments = [])
      ∧ (s = ticket_updated post (get_updates context) context
         <-> ¬ (created = true ∧ post_comments = [])).
Proof.
  intros json_loads int_of_str client event w ticket_id post created d' Hid Hsync
    post_comments context.
  rewrite (process_event_sync_ok _ _ _ _ _ _ _ _ _ Hid Hsync). simpl.
  fold post_comments. fold context.
  destruct created; simpl.
  - case_bool_decide as Hnil.
    + exists (ticket_created post context). split; [done|]. split.
      * tauto.
      * split; [discriminate|]. intros Hneg. exfalso. by apply Hneg.
    + exists (ticket_updated post (get_updates context) context). split; [done|]. split.
      * split; [discriminate|]. by intros [_ ?].
      * split; [|done]. by intros _ [_ ?].
  - exists (ticket_updated post (get_updates context) context). split; [done|]. split.
    + split; [discriminate|]. by intros [? _].
    + split; [|done]. by intros _ [? _].
Qed.

(** The end-to-end case of a ticket not yet known locally and without
    comments: one [ticket_created] signal, for the ticket with remote id
    42. *)
Lemma process_event_sends_exactly_one_signal_witness :
  ∃ s : signal,
    process_event demo_json_loads demo_int_of_str client_ticket_42 event_42
      world_with_event_42
    = (Ok tt,
       mkWorld (mkDB (Table [local_ada_cached] 2) (Table [local_ticket_42] 2) empty_table
                     (Table [event_42] 2) [])
               [s])
    ∧ (s = ticket_created local_ticket_42 (mkContext None (Some local_ticket_42) [] [])
       <-> true = true ∧ @nil Comment.t = []).
Proof.
  destruct (process_event_sends_exactly_one_signal demo_json_loads demo_int_of_str
              client_ticket_42 event_42 world_with_event_42 42 local_ticket_42 true
              (mkDB (Table [local_ada_cached] 2) (Table [local_ticket_42] 2) empty_table
                    (Table [event_42] 2) []))
    as (s & Hrun & Hcreated & _).
  - vm_compute. reflexivity.
  - vm_compute. reflexivity.
  - exists s. split; [exact Hrun|exact Hcreated].
Defined.

(** ** What the synchroniser leaves alone *)

Lemma same_events_refl (d : DB) : same_events d d.
Proof. done. Qed.

Lemma same_events_trans (d1 d2 d3 : DB) :
  same_events d1 d2 -> same_events d2 d3 -> same_events d1 d3.
Proof. intros [? ?] [? ?]. split; congruence. Qed.

Lemma on_users_same_events {A} (c : M (table ZendeskUser.t) A) (d : DB) :
  same_events d (snd (on_users c d)).
Proof. unfold on_users. by destruct (c (users d)). Qed.

Lemma on_tickets_same_events {A} (c : M (table Ticket.t) A) (d : DB) :
  same_events d (snd (on_tickets c d)).
Proof. unfold on_tickets. by destruct (c (tickets d)). Qed.

Lemma on_comments_same_events {A} (c : M (table Comment.t) A) (d : DB) :
  same_events d (snd (on_comments c d)).
Proof. unfold on_comments. by destruct (c (comments d)). Qed.

Lemma bind_same_events {A B} (c : M DB A) (k : A -> M DB B) (d : DB) :
  same_events d (snd (c d)) ->
  (∀ a d1, same_events d1 (snd (k a d1))) ->
  same_events d (snd (bind c k d)).
Proof.
  intros Hc Hk. unfold bind. destruct (c d) as [[a|e] d1] eqn:Hcd; simpl in *.
  - eapply same_events_trans; [exact Hc|apply Hk].
  - exact Hc.
Qed.

Lemma local_zd_user_same_events (remote : RemoteUser.t) (d : DB) :
  same_events d (snd (update_or_create_local_zd_user_for_remote_zd_user remote d)).
Proof.
  unfold update_or_create_local_zd_user_for_remote_zd_user.
  apply bind_same_events; [done|]. intros local_user d1.
  apply bind_same_events; [apply on_users_same_events|]. by intros [instance created] d2.
Qed.

Lemma sync_comments_loop_same_events (remote_comments : list RemoteComment.t)
    (local_ticket : Ticket.t) (user_map : list (RemoteUser.t * Z))
    (local_comments : list Comment.t) (d : DB) :
  same_events d
    (snd (sync_comments_loop remote_comments local_ticket user_map local_comments d)).
Proof.
  revert user_map local_comments d.
  induction remote_comments as [|remote_comment rest IH]; intros user_map local_comments d;
    [done|].
  simpl. apply bind_same_events.
  - destruct (user_map_get user_map (RemoteComment.author remote_comment)); [done|].
    apply bind_same_events; [apply local_zd_user_same_events|done].
  - intros [author user_map'] d1.
    apply bind_same_events; [apply on_comments_same_events|].
    intros [local_comment created] d2. apply IH.
Qed.

Lemma sync_ticket_same_events (client : Client) (remote : RemoteTicket.t) (d : DB) :
  same_events d (snd (sync_ticket client remote d)).
Proof.
  unfold sync_ticket.
  apply bind_same_events; [apply local_zd_user_same_events|]. intros local_zd_user d1.
  apply bind_same_events; [apply on_tickets_same_events|].
  intros [local_ticket created] d2.
  apply bind_same_events; [|done]. unfold sync_comments.
  apply bind_same_events; [done|]. intros remote_comments d3.
  apply bind_same_events; [apply sync_comments_loop_same_events|done].
Qed.

Lemma sync_ticket_id_same_events (client : Client) (ticket_id : Z) (d : DB) :
  same_events d (snd (sync_ticket_id client ticket_id d)).
Proof.
  unfold sync_ticket_id. apply bind_same_events; [done|].
  intros remote d1. apply sync_ticket_same_events.
Qed.

(** ** Recording the outcome on the event *)

Section RecordErrors.

Variable json_loads : string -> result json.
Variable int_of_str : string -> option Z.
Variable format_exc : exn -> string.
Variable client : Client.

(** When the processing goes through, the outcome is that of
    [process_event], and no row of the event table is written. *)
Lemma record_errors_success (event : Event.t) (w w' : World) :
  process_event json_loads int_of_str client event w = (Ok tt, w') ->
  process_event_and_record_errors json_loads int_of_str format_exc client event w
  = (Ok tt, w')
  ∧ events (db w') = events (db w).
Proof.
  intros Hrun. split.
  - unfold process_event_and_record_errors, try_except, atomic. by rewrite Hrun.
  - revert Hrun. unfold process_event, bind, lift, on_db, get_db, ret, send.
    destruct (rbind _ _) as [ticket_id|e0]; simpl; [|done].
    pose proof (sync_ticket_id_same_events client ticket_id (db w)) as [Hev _].
    destruct (head _) as [pre|]; simpl;
      destruct (sync_ticket_id client ticket_id (db w)) as [[[post created]|e1] d'];
      simpl in *; try done;
      destruct (created && _); by intros [= <-].
Qed.

(** When the processing raises, the database goes back to what it was, the
    formatted exception is written on the event, and the exception goes on
    to the caller. *)
Lemma record_errors_failure (event : Event.t) (w w' : World) (e : exn) :
  process_event json_loads int_of_str client event w = (Raise e, w') ->
  Event.id event ∈ Event.id <$> rows (events (db w)) ->
  process_event_and_record_errors json_loads int_of_str format_exc client event w
  = (Raise e, mkWorld (with_error_recorded event (format_exc e) (db w)) (sent w)).
Proof.
  intros Hrun Hin.
  pose proof (process_event_raise_sends_nothing _ _ _ _ _ _ _ Hrun) as Hsent.
  unfold process_event_and_record_errors, try_except, atomic. rewrite Hrun.
  unfold bind, on_db, Event_save_update_fields, on_events, raise. simpl.
  rewrite bool_decide_eq_true_2 by done. simpl.
  rewrite Hsent. unfold with_error_recorded. do 3 f_equal.
Qed.

End RecordErrors.

(** C2 fails on the code, in its second half.  The stored event of the
    payload with [id] 42 carries the error of an earlier attempt; its
    processing goes through and sends [ticket_created] for the new ticket,
    and the event row is what it was: the error is not cleared and the
    ticket link is not set. *)
Theorem record_errors_success_leaves_event_as_it_was :
  process_event_and_record_errors demo_json_loads demo_int_of_str demo_format_exc
    client_ticket_42 event_42 world_with_event_42
  = (Ok tt,
     mkWorld (mkDB (Table [local_ada_cached] 2) (Table [local_ticket_42] 2) empty_table
                   (Table [event_42] 2) [])
             [ticket_created local_ticket_42
                (mkContext None (Some local_ticket_42) [] [])])
  ∧ Event.error event_42 = Some "Traceback of an earlier attempt"%string
  ∧ Event.ticket event_42 = None.
Proof. repeat split; vm_compute; reflexivity. Qed.

(** The first half of C2, on an example: the remote service is down, the
    processing raises, no row but the event's is written, the formatted
    exception is on the event, and the exception reaches the caller. *)
Lemma record_errors_failure_example :
  process_event_and_record_errors demo_json_loads demo_int_of_str demo_format_exc
    client_down event_42 world_with_event_42
  = (Raise (APIException "Service unavailable"),
     mkWorld (mkDB empty_table empty_table empty_table
                (Table [Event.mk 1 payload_id_42 None
                          (Some (demo_format_exc (APIException "Service unavailable")))
                          None] 2) [])
             []).
Proof. vm_compute. reflexivity. Qed.

(** ** The status of a synced ticket *)

Lemma states_by_id_get_spec (s : string) (st : Ticket.states) :
  Ticket.states_by_id_get s = Some st <-> s = state_id st.
Proof.
  unfold Ticket.states_by_id_get.
  destruct (String.eqb_spec s "new") as [->|Hnew]; [by destruct st|].
  destruct (String.eqb_spec s "open") as [->|Hopen]; [by destruct st|].
  destruct (String.eqb_spec s "pending") as [->|Hpending]; [by destruct st|].
  destruct (String.eqb_spec s "hold") as [->|Hhold]; [by destruct st|].
  destruct (String.eqb_spec s "solved") as [->|Hsolved]; [by destruct st|].
  destruct (String.eqb_spec s "closed") as [->|Hclosed]; [by destruct st|].
  split; [done|]. intros ->. by destruct st.
Qed.

Lemma local_zd_user_frame (remote : RemoteUser.t) (d : DB) :
  tickets (snd (update_or_create_local_zd_user_for_remote_zd_user remote d)) = tickets d
  ∧ comments (snd (update_or_create_local_zd_user_for_remote_zd_user remote d))
    = comments d.
Proof.
  unfold update_or_create_local_zd_user_for_remote_zd_user, bind, get_db, on_users, ret.
  simpl. by destruct (update_or_create _ _ (users d)) as [[[instance created]|e] t].
Qed.

(** ** Tables under [update_or_create] *)

#[global] Instance ZendeskUser_ModelLaws : ModelLaws ZendeskUser.t Z ZendeskUser.defaults.
Proof. split; [done|done|]. intros v r. reflexivity. Qed.

#[global] Instance Ticket_ModelLaws : ModelLaws Ticket.t Z Ticket.defaults.
Proof. split; [done|done|]. intros v r. reflexivity. Qed.

#[global] Instance Comment_ModelLaws : ModelLaws Comment.t (Z * Z) Comment.defaults.
Proof. split; [done| |]; intros; by destruct k || reflexivity. Qed.

Lemma NoDup_fmap_member_inj {A B} (f : A -> B) (l : list A) (x y : A) :
  NoDup (f <$> l) -> x ∈ l -> y ∈ l -> f x = f y -> x = y.
Proof.
  induction l as [|a l IH]; intros Hnd Hx Hy Hf; [by apply elem_of_nil in Hx|].
  rewrite fmap_cons in Hnd. apply NoDup_cons in Hnd as [Ha Hnd].
  apply elem_of_cons in Hx as [->|Hx]; apply elem_of_cons in Hy as [->|Hy].
  - done.
  - exfalso. apply Ha. rewrite Hf. by apply list_elem_of_fmap_2.
  - exfalso. apply Ha. rewrite <- Hf. by apply list_elem_of_fmap_2.
  - by apply IH.
Qed.

Section Table.

Context {R K V : Type} `{ModelLaws R K V}.

Lemma table_keys_NoDup (t : table R) : table_wf t -> NoDup (key_of <$> rows t).
Proof.
  intros (_ & Hu & _). apply (NoDup_fmap_1 unique_of).
  rewrite <- list_fmap_compose. exact Hu.
Qed.

(** The one row of a key. *)
Lemma filter_key_member (l : list R) (r : R) :
  NoDup (key_of <$> l) -> r ∈ l -> filter (fun x => key_of x = key_of r) l = [r].
Proof.
  induction l as [|a l IH]; intros Hnd Hr; [by apply elem_of_nil in Hr|].
  rewrite fmap_cons in Hnd. apply NoDup_cons in Hnd as [Ha Hnd].
  apply elem_of_cons in Hr as [->|Hr].
  - rewrite filter_cons_True by done. f_equal.
    destruct (filter (fun x => key_of x = key_of a) l) as [|x xs] eqn:Hf; [done|].
    exfalso. assert (x ∈ filter (fun x => key_of x = key_of a) l) as Hx
      by (rewrite Hf; by left).
    apply list_elem_of_filter in Hx as [Hk Hx]. apply Ha. rewrite <- Hk.
    by apply list_elem_of_fmap_2.
  - rewrite filter_cons_False; [by apply IH|].
    intros Hk. apply Ha. rewrite Hk. by apply list_elem_of_fmap_2.
Qed.

Lemma filter_key_nil (l : list R) (k : K) :
  filter (fun x => key_of x = k) l = [] <-> k ∉ key_of <$> l.
Proof.
  split.
  - intros Hf Hin. apply list_elem_of_fmap in Hin as (x & -> & Hx).
    by apply (filter_nil_not_elem_of _ _ x Hf).
  - intros Hk. destruct (filter (fun x => key_of x = k) l) as [|x xs] eqn:Hf; [done|].
    exfalso. assert (x ∈ filter (fun x => key_of x = k) l) as Hx by (rewrite Hf; by left).
    apply list_elem_of_filter in Hx as [<- Hx]. apply Hk. by apply list_elem_of_fmap_2.
Qed.

(** The two ways [update_or_create] goes through. *)
Lemma update_or_create_ok (k : K) (v : V) (t t' : table R) (r : R) (created : bool) :
  update_or_create k v t = (Ok (r, created), t') ->
  valid v = true
  ∧ ((created = true
      ∧ filter (fun x => key_of x = k) (rows t) = []
      ∧ (unique_of k ∉ (fun x => unique_of (key_of x)) <$> rows t)
      ∧ r = build (next_id t) k v
      ∧ t' = Table (rows t ++ [r]) (next_id t + 1))
     ∨ (created = false
        ∧ ∃ r0, filter (fun x => key_of x = k) (rows t) = [r0]
                ∧ r = build (pk r0) k v
                ∧ t' = Table ((fun x => if bool_decide (pk x = pk r0) then r else x)
                                <$> rows t) (next_id t))).
Proof.
  unfold update_or_create.
  destruct (filter _ (rows t)) as [|r0 [|r1 l]] eqn:Hf; [| |done].
  - destruct (valid v); [|done]. simpl. case_bool_decide as Hu; [done|].
    intros [= <- <- <-]. split; [done|]. by left.
  - destruct (valid v); [|done]. simpl. intros [= <- <- <-]. split; [done|]. right.
    split; [done|]. exists r0.
    assert (key_of r0 = k) as Hk.
    { assert (r0 ∈ filter (fun x => key_of x = k) (rows t)) as Hr0
        by (rewrite Hf; by left).
      by apply list_elem_of_filter in Hr0 as [? _]. }
    rewrite assign_build, Hk. done.
Qed.

(** A refused upsert writes nothing. *)
Lemma update_or_create_raise (k : K) (v : V) (t t' : table R) (e : exn) :
  update_or_create k v t = (Raise e, t') -> t' = t.
Proof.
  unfold update_or_create.
  destruct (filter _ (rows t)) as [|r0 [|r1 l]].
  - destruct (negb (valid v)); [by intros [= _ <-]|].
    case_bool_decide; [by intros [= _ <-]|done].
  - destruct (negb (valid v)); [by intros [= _ <-]|done].
  - by intros [= _ <-].
Qed.

Lemma index_pk (t : table R) : snd <$> index t = pk <$> rows t.
Proof. unfold index. rewrite <- list_fmap_compose. done. Qed.

Lemma index_key (t : table R) : fst <$> index t = key_of <$> rows t.
Proof. unfold index. rewrite <- list_fmap_compose. done. Qed.

Lemma uniques_of_keys (l : list R) :
  (fun r => unique_of (key_of r)) <$> l = unique_of <$> (key_of <$> l).
Proof. by rewrite <- list_fmap_compose. Qed.

(** Well-formedness is a property of the index and the counter. *)
Lemma table_wf_index (t t' : table R) :
  index t' = index t -> next_id t' = next_id t -> table_wf t -> table_wf t'.
Proof.
  intros Hi Hn (Hpk & Hu & Hlt). unfold table_wf.
  rewrite <- (index_pk t'), Hi, (index_pk t). split; [done|]. split.
  - rewrite uniques_of_keys, <- index_key, Hi, index_key, <- uniques_of_keys. done.
  - apply (Forall_fmap pk (fun i => i < next_id t')).
    rewrite <- (index_pk t'), Hi, index_pk, Hn.
    by apply (Forall_fmap pk (fun i => i < next_id t)).
Qed.

(** Writing back, by primary key, a row that keeps its lookup and its key
    leaves the index as it was. *)
Lemma replace_index (l : list R) (r0 r : R) :
  NoDup (pk <$> l) -> r0 ∈ l -> key_of r = key_of r0 -> pk r = pk r0 ->
  (fun x => (key_of x, pk x)) <$> ((fun x => if bool_decide (pk x = pk r0) then r else x) <$> l)
  = (fun x => (key_of x, pk x)) <$> l.
Proof.
  intros Hnd Hr0 Hk Hp. rewrite <- list_fmap_compose.
  apply list_fmap_ext. intros i x Hx. simpl.
  case_bool_decide as Hpx; [|done].
  assert (x = r0) as -> by (eapply (NoDup_fmap_member_inj pk); eauto using list_elem_of_lookup_2).
  by rewrite Hk, Hp.
Qed.

Lemma filter_singleton_member (l : list R) (k : K) (r0 : R) :
  filter (fun x => key_of x = k) l = [r0] -> r0 ∈ l ∧ key_of r0 = k.
Proof.
  intros Hf. assert (r0 ∈ filter (fun x => key_of x = k) l) as Hin
    by (rewrite Hf; by left).
  apply list_elem_of_filter in Hin. tauto.
Qed.

(** An upsert that goes through keeps the table well formed, extends the
    index at its end at most, and leaves the returned row in the table. *)
Lemma update_or_create_wf (k : K) (v : V) (t t' : table R) (r : R) (created : bool) :
  table_wf t ->
  update_or_create k v t = (Ok (r, created), t') ->
  table_wf t'
  ∧ index t `prefix_of` index t'
  ∧ r ∈ rows t'
  ∧ key_of r = k.
Proof.
  intros Hwf Hup. pose proof Hwf as (Hpk & Hu & Hlt).
  apply update_or_create_ok in Hup
    as (_ & [(-> & Hnil & Hfresh & -> & ->)|(-> & r0 & Hone & -> & ->)]).
  - split; [|split; [|split]].
    + unfold table_wf. simpl. rewrite !fmap_app. simpl.
      rewrite pk_build, key_build. split; [|split].
      * apply NoDup_app. split; [done|]. split; [|apply NoDup_singleton].
        intros i Hi Hin. apply list_elem_of_singleton in Hin as ->.
        apply list_elem_of_fmap in Hi as (x & Hx & Hxin).
        rewrite Forall_forall in Hlt. specialize (Hlt x Hxin). lia.
      * apply NoDup_app. split; [done|]. split; [|apply NoDup_singleton].
        intros i Hi Hin. by apply list_elem_of_singleton in Hin as ->.
      * apply Forall_app. split.
        -- eapply Forall_impl; [exact Hlt|]. intros x Hx. simpl in Hx. lia.
        -- apply Forall_singleton. rewrite pk_build. lia.
    + unfold index. simpl. rewrite fmap_app. by apply prefix_app_r.
    + simpl. apply elem_of_app. right. by left.
    + apply key_build.
  - apply filter_singleton_member in Hone as [Hr0 Hk0].
    assert (index (Table ((fun x => if bool_decide (pk x = pk r0)
                                    then build (pk r0) k v else x) <$> rows t)
                         (next_id t)) = index t) as Hidx.
    { unfold index. simpl. apply replace_index; try done.
      - by rewrite key_build.
      - by rewrite pk_build. }
    split; [|split; [|split]].
    + by apply (table_wf_index t).
    + by rewrite Hidx.
    + simpl. apply list_elem_of_fmap. exists r0. split; [|done].
      by rewrite bool_decide_eq_true_2.
    + apply key_build.
Qed.

End Table.

Section Rerun.

Context {R K V : Type} `{ModelLaws R K V}.

(** An upsert leaves every row of another lookup where it is. *)
Lemma update_or_create_keeps_others (k : K) (v : V) (t t' : table R) (r x : R)
    (created : bool) :
  table_wf t ->
  update_or_create k v t = (Ok (r, created), t') ->
  x ∈ rows t -> key_of x ≠ k -> x ∈ rows t'.
Proof.
  intros (Hpk & _ & _) Hup Hx Hne.
  apply update_or_create_ok in Hup
    as (_ & [(-> & Hnil & Hfresh & -> & ->)|(-> & r0 & Hone & -> & ->)]); simpl.
  - apply elem_of_app. by left.
  - apply filter_singleton_member in Hone as [Hr0 Hk0].
    apply list_elem_of_fmap. exists x. split; [|done].
    rewrite bool_decide_eq_false_2; [done|]. intros Hp.
    apply Hne. rewrite <- Hk0. f_equal.
    by apply (NoDup_fmap_member_inj pk (rows t)).
Qed.

(** Two lists of rows of a well-formed table with the same primary keys in
    the same order are the same list. *)
Lemma rows_determined_by_pk (L l1 l2 : list R) :
  NoDup (pk <$> L) ->
  (∀ x, x ∈ l1 -> x ∈ L) -> (∀ x, x ∈ l2 -> x ∈ L) ->
  pk <$> l1 = pk <$> l2 -> l1 = l2.
Proof.
  intros Hnd. revert l2. induction l1 as [|x l1 IH]; intros [|y l2] H1 H2 Hpk;
    try done.
  rewrite !fmap_cons in Hpk. injection Hpk as Hxy Hrest. f_equal.
  - apply (NoDup_fmap_member_inj pk L); try done.
    + apply H1. by left.
    + apply H2. by left.
  - apply IH; try done.
    + intros z Hz. apply H1. by right.
    + intros z Hz. apply H2. by right.
Qed.

(** When the second run is over, its table is the table of the first. *)
Lemma sim_final (F b : table R) (T : list K) :
  table_wf F -> sim F T F b -> b = F.
Proof.
  intros (Hpk & _ & _) (Hidx & Hnext & Hrows).
  destruct b as [rb nb], F as [rf nf]. simpl in *. subst nb. f_equal.
  apply (rows_determined_by_pk rf); try done.
  - intros x Hx. destruct (Hrows x Hx) as [Hin Hout].
    destruct (decide (key_of x ∈ T)); auto.
  - change (pk <$> rows (Table rb nf) = pk <$> rows (Table rf nf)).
    by rewrite <- !index_pk, Hidx.
Qed.

Lemma sim_start (F a : table R) : sim F [] a F.
Proof.
  split; [done|]. split; [done|]. intros r Hr. split; [|done].
  intros Hin. by apply elem_of_nil in Hin.
Qed.

(** One upsert of the first run, done again in the second: it finds the
    row, returns what the first run returned, and the two runs stay in
    step. *)
Lemma update_or_create_rerun (F a a1 b : table R) (T : list K) (k : K) (v : V)
    (r : R) (created : bool) :
  table_wf F -> table_wf a ->
  update_or_create k v a = (Ok (r, created), a1) ->
  index a1 `prefix_of` index F ->
  sim F T a b ->
  ∃ b1, update_or_create k v b = (Ok (r, false), b1) ∧ sim F (k :: T) a1 b1.
Proof.
  intros HwfF Hwfa Hup Hext (Hidx & Hnext & Hrows).
  pose proof (update_or_create_wf _ _ _ _ _ _ Hwfa Hup) as (Hwfa1 & Hpre & Hr & Hkr).
  pose proof (update_or_create_ok _ _ _ _ _ _ Hup) as (Hvalid & Hcases).
  assert (r = build (pk r) k v) as Hrbuild.
  { destruct Hcases as [(_ & _ & _ & -> & _)|(_ & r0 & _ & -> & _)];
      by rewrite pk_build. }
  (* the row of [k] in the second run *)
  assert ((k, pk r) ∈ index b) as Hinb.
  { rewrite Hidx. eapply elem_of_prefix; [|exact Hext].
    unfold index. apply list_elem_of_fmap. exists r. by rewrite Hkr. }
  unfold index in Hinb. apply list_elem_of_fmap in Hinb as (rb & Heq & Hrb).
  injection Heq as Hkb Hpb.
  assert (NoDup (key_of <$> rows b)) as Hkeys.
  { rewrite <- index_key, Hidx, index_key. by apply table_keys_NoDup. }
  assert (NoDup (pk <$> rows b)) as Hpks.
  { rewrite <- index_pk, Hidx, index_pk. by destruct HwfF. }
  assert (filter (fun x => key_of x = k) (rows b) = [rb]) as Hone.
  { rewrite Hkb. by apply filter_key_member. }
  exists (Table ((fun x => if bool_decide (pk x = pk rb) then r else x) <$> rows b)
                (next_id b)).
  split.
  - unfold update_or_create. rewrite Hone, Hvalid. simpl.
    rewrite assign_build, <- Hkb, <- Hpb, <- Hrbuild. done.
  - split; [|split; [done|]].
    + rewrite <- Hidx. unfold index. simpl. apply replace_index; try done.
      * by rewrite Hkr.
    + simpl. intros x' Hx'. apply list_elem_of_fmap in Hx' as (x & -> & Hx).
      case_bool_decide as Hp.
      * split; [done|]. intros Hout. exfalso. apply Hout. rewrite Hkr. by left.
      * assert (key_of x ≠ k) as Hne.
        { intros Hk. apply Hp. f_equal.
          apply (NoDup_fmap_member_inj key_of (rows b)); try done. congruence. }
        destruct (Hrows x Hx) as [Hin Hout]. split.
        -- intros HT. apply elem_of_cons in HT as [?|HT]; [done|].
           exact (update_or_create_keeps_others k v a a1 r x created Hwfa Hup (Hin HT) Hne).
        -- intros HT. apply Hout. intros HT'. apply HT. by right.
Qed.

End Rerun.

(** ** The sync, run twice *)

Lemma bind_ok_inv {S A B} (c : M S A) (k : A -> M S B) (s s' : S) (b : B) :
  bind c k s = (Ok b, s') -> ∃ a s1, c s = (Ok a, s1) ∧ k a s1 = (Ok b, s').
Proof.
  unfold bind. destruct (c s) as [[a|e] s1]; [|done]. intros Hk. by exists a, s1.
Qed.

Lemma ext_db_refl (d : DB) : ext_db d d.
Proof. unfold ext_db. done. Qed.

Lemma ext_db_trans (d1 d2 d3 : DB) : ext_db d1 d2 -> ext_db d2 d3 -> ext_db d1 d3.
Proof.
  intros (? & ? & ? & ? & ?) (? & ? & ? & ? & ?).
  split; [by etrans|]. split; [by etrans|]. split; [by etrans|]. split; congruence.
Qed.

Lemma local_zd_user_unfold (remote : RemoteUser.t) (d : DB) :
  update_or_create_local_zd_user_for_remote_zd_user remote d
  = match update_or_create (RemoteUser.id remote) (user_defaults remote d) (users d) with
    | (Ok (instance, created), t) =>
        (Ok instance, mkDB t (tickets d) (comments d) (events d) (local_users d))
    | (Raise e, t) =>
        (Raise e, mkDB t (tickets d) (comments d) (events d) (local_users d))
    end.
Proof.
  unfold update_or_create_local_zd_user_for_remote_zd_user, bind, get_db, on_users, ret,
    user_defaults.
  by destruct (update_or_create _ _ (users d)) as [[[instance created]|e] t].
Qed.

Lemma user_defaults_local_users (remote : RemoteUser.t) (d d' : DB) :
  local_users d = local_users d' -> user_defaults remote d = user_defaults remote d'.
Proof.
  intros Hl. unfold user_defaults, get_local_user_for_external_id. by rewrite Hl.
Qed.

(** The first run, one upsert at a time. *)
Lemma local_zd_user_ok (remote : RemoteUser.t) (a a1 : DB) (u : ZendeskUser.t) :
  db_wf a ->
  update_or_create_local_zd_user_for_remote_zd_user remote a = (Ok u, a1) ->
  db_wf a1 ∧ ext_db a a1.
Proof.
  intros (Hu & Ht & Hc). rewrite local_zd_user_unfold.
  destruct (update_or_create _ _ (users a)) as [[[instance created]|e] t] eqn:Hup;
    [|done].
  intros [= <- <-].
  apply (update_or_create_wf _ _ _ _ _ _ Hu) in Hup as (Hwf & Hpre & _ & _).
  split; [done|]. unfold ext_db. simpl. split; [exact Hpre|done].
Qed.

Lemma on_tickets_ok (k : Z) (v : Ticket.defaults) (a a1 : DB) (r : Ticket.t)
    (created : bool) :
  db_wf a ->
  on_tickets (update_or_create k v) a = (Ok (r, created), a1) ->
  db_wf a1 ∧ ext_db a a1.
Proof.
  intros (Hu & Ht & Hc). unfold on_tickets.
  destruct (update_or_create k v (tickets a)) as [[[r' created']|e] t] eqn:Hup; [|done].
  intros [= <- <- <-].
  apply (update_or_create_wf _ _ _ _ _ _ Ht) in Hup as (Hwf & Hpre & _ & _).
  split; [done|]. unfold ext_db. simpl. split; [done|]. split; [exact Hpre|done].
Qed.

Lemma on_comments_ok (k : Z * Z) (v : Comment.defaults) (a a1 : DB) (r : Comment.t)
    (created : bool) :
  db_wf a ->
  on_comments (update_or_create k v) a = (Ok (r, created), a1) ->
  db_wf a1 ∧ ext_db a a1.
Proof.
  intros (Hu & Ht & Hc). unfold on_comments.
  destruct (update_or_create k v (comments a)) as [[[r' created']|e] t] eqn:Hup; [|done].
  intros [= <- <- <-].
  apply (update_or_create_wf _ _ _ _ _ _ Hc) in Hup as (Hwf & Hpre & _ & _).
  split; [done|]. unfold ext_db. simpl. split; [done|]. split; [done|].
  split; [exact Hpre|done].
Qed.

(** The second run, one upsert at a time. *)
Lemma local_zd_user_rerun (F a a1 b : DB) (T : touched) (remote : RemoteUser.t)
    (u : ZendeskUser.t) :
  db_wf F -> db_wf a ->
  update_or_create_local_zd_user_for_remote_zd_user remote a = (Ok u, a1) ->
  ext_db a1 F -> sim_db F T a b ->
  ∃ b1 T1,
    update_or_create_local_zd_user_for_remote_zd_user remote b = (Ok u, b1)
    ∧ sim_db F T1 a1 b1.
Proof.
  intros (HFu & _ & _) (Hau & _ & _) Hrun Hext (Hsu & Hst & Hsc & Hev & Hlu).
  rewrite local_zd_user_unfold in Hrun.
  destruct (update_or_create _ _ (users a)) as [[[instance created]|e] t] eqn:Hup;
    [|done].
  injection Hrun as -> <-. destruct Hext as (Hpre & _ & _ & _ & Hla). simpl in *.
  destruct (update_or_create_rerun _ _ _ _ _ _ _ _ _ HFu Hau Hup Hpre Hsu)
    as (bt & Hbt & Hsim).
  exists (mkDB bt (tickets b) (comments b) (events b) (local_users b)),
         (mkTouched (RemoteUser.id remote :: t_users T) (t_tickets T) (t_comments T)).
  split.
  - rewrite local_zd_user_unfold.
    rewrite (user_defaults_local_users remote b a) by congruence.
    by rewrite Hbt.
  - split; [exact Hsim|]. split; [exact Hst|]. split; [exact Hsc|]. done.
Qed.

Lemma on_tickets_rerun (F a a1 b : DB) (T : touched) (k : Z) (v : Ticket.defaults)
    (r : Ticket.t) (created : bool) :
  db_wf F -> db_wf a ->
  on_tickets (update_or_create k v) a = (Ok (r, created), a1) ->
  ext_db a1 F -> sim_db F T a b ->
  ∃ b1 T1,
    on_tickets (update_or_create k v) b = (Ok (r, false), b1) ∧ sim_db F T1 a1 b1.
Proof.
  intros (_ & HFt & _) (_ & Hat & _) Hrun Hext (Hsu & Hst & Hsc & Hev & Hlu).
  unfold on_tickets in Hrun.
  destruct (update_or_create k v (tickets a)) as [[[r' created']|e] t] eqn:Hup; [|done].
  injection Hrun as -> -> <-. destruct Hext as (_ & Hpre & _ & _ & Hla). simpl in *.
  destruct (update_or_create_rerun _ _ _ _ _ _ _ _ _ HFt Hat Hup Hpre Hst)
    as (bt & Hbt & Hsim).
  exists (mkDB (users b) bt (comments b) (events b) (local_users b)),
         (mkTouched (t_users T) (k :: t_tickets T) (t_comments T)).
  split.
  - unfold on_tickets. by rewrite Hbt.
  - split; [exact Hsu|]. split; [exact Hsim|]. split; [exact Hsc|]. done.
Qed.

Lemma on_comments_rerun (F a a1 b : DB) (T : touched) (k : Z * Z)
    (v : Comment.defaults) (r : Comment.t) (created : bool) :
  db_wf F -> db_wf a ->
  on_comments (update_or_create k v) a = (Ok (r, created), a1) ->
  ext_db a1 F -> sim_db F T a b ->
  ∃ b1 T1,
    on_comments (update_or_create k v) b = (Ok (r, false), b1) ∧ sim_db F T1 a1 b1.
Proof.
  intros (_ & _ & HFc) (_ & _ & Hac) Hrun Hext (Hsu & Hst & Hsc & Hev & Hlu).
  unfold on_comments in Hrun.
  destruct (update_or_create k v (comments a)) as [[[r' created']|e] t] eqn:Hup; [|done].
  injection Hrun as -> -> <-. destruct Hext as (_ & _ & Hpre & _ & Hla). simpl in *.
  destruct (update_or_create_rerun _ _ _ _ _ _ _ _ _ HFc Hac Hup Hpre Hsc)
    as (bt & Hbt & Hsim).
  exists (mkDB (users b) (tickets b) bt (events b) (local_users b)),
         (mkTouched (t_users T) (t_tickets T) (k :: t_comments T)).
  split.
  - unfold on_comments. by rewrite Hbt.
  - split; [exact Hsu|]. split; [exact Hst|]. split; [exact Hsim|]. done.
Qed.

Lemma sim_db_final (F b : DB) (T : touched) : db_wf F -> sim_db F T F b -> b = F.
Proof.
  intros (HFu & HFt & HFc) (Hsu & Hst & Hsc & Hev & Hlu).
  apply sim_final in Hsu; [|done]. apply sim_final in Hst; [|done].
  apply sim_final in Hsc; [|done].
  destruct b, F. simpl in *. by subst.
Qed.

Lemma sim_db_start (F a : DB) : sim_db F (mkTouched [] [] []) a F.
Proof.
  split; [apply sim_start|]. split; [apply sim_start|]. split; [apply sim_start|]. done.
Qed.

(** The loop of [sync_comments] in the first run. *)
Lemma sync_comments_loop_ok (remote_comments : list RemoteComment.t)
    (local_ticket : Ticket.t) (user_map : list (RemoteUser.t * Z))
    (local_comments out : list Comment.t) (a F : DB) :
  db_wf a ->
  sync_comments_loop remote_comments local_ticket user_map local_comments a = (Ok out, F) ->
  db_wf F ∧ ext_db a F.
Proof.
  revert user_map local_comments a.
  induction remote_comments as [|remote_comment rest IH];
    intros user_map local_comments a Hwf Hrun.
  - injection Hrun as _ <-. split; [done|apply ext_db_refl].
  - simpl in Hrun.
    apply bind_ok_inv in Hrun as ([author user_map'] & a1 & Hauthor & Hrun).
    apply bind_ok_inv in Hrun as ([local_comment created] & a2 & Hcomment & Hrun).
    assert (db_wf a1 ∧ ext_db a a1) as [Hwf1 Hext1].
    { destruct (user_map_get user_map (RemoteComment.author remote_comment)).
      - injection Hauthor as _ _ <-. split; [done|apply ext_db_refl].
      - apply bind_ok_inv in Hauthor as (u & a1' & Hu & Hret).
        injection Hret as _ _ <-. by apply (local_zd_user_ok _ _ _ _ Hwf Hu). }
    destruct (on_comments_ok _ _ _ _ _ _ Hwf1 Hcomment) as [Hwf2 Hext2].
    destruct (IH _ _ _ Hwf2 Hrun) as [HwfF HextF].
    split; [done|]. eapply ext_db_trans; [exact Hext1|].
    eapply ext_db_trans; [exact Hext2|exact HextF].
Qed.

(** The loop of [sync_comments] in the second run. *)
Lemma sync_comments_loop_rerun (remote_comments : list RemoteComment.t)
    (local_ticket : Ticket.t) (user_map : list (RemoteUser.t * Z))
    (local_comments out : list Comment.t) (a F b : DB) (T : touched) :
  db_wf F -> db_wf a ->
  sync_comments_loop remote_comments local_ticket user_map local_comments a = (Ok out, F) ->
  sim_db F T a b ->
  ∃ b' T',
    sync_comments_loop remote_comments local_ticket user_map local_comments b
    = (Ok out, b')
    ∧ sim_db F T' F b'.
Proof.
  intros HwfF. revert user_map local_comments a b T.
  induction remote_comments as [|remote_comment rest IH];
    intros user_map local_comments a b T Hwf Hrun Hsim.
  - injection Hrun as <- <-. by exists b, T.
  - simpl in Hrun.
    apply bind_ok_inv in Hrun as ([author user_map'] & a1 & Hauthor & Hrun).
    apply bind_ok_inv in Hrun as ([local_comment created] & a2 & Hcomment & Hrun).
    assert (db_wf a1 ∧ ext_db a a1) as [Hwf1 Hext1].
    { destruct (user_map_get user_map (RemoteComment.author remote_comment)).
      - injection Hauthor as _ _ <-. split; [done|apply ext_db_refl].
      - apply bind_ok_inv in Hauthor as (u & a1' & Hu & Hret).
        injection Hret as _ _ <-. by apply (local_zd_user_ok _ _ _ _ Hwf Hu). }
    destruct (on_comments_ok _ _ _ _ _ _ Hwf1 Hcomment) as [Hwf2 Hext2].
    destruct (sync_comments_loop_ok _ _ _ _ _ _ _ Hwf2 Hrun) as [_ HextF].
    assert (ext_db a1 F) as Hext1F by (eapply ext_db_trans; eauto).
    (* the author, again *)
    assert (∃ b1 T1,
      match user_map_get user_map (RemoteComment.author remote_comment) with
      | Some author => ret (author, user_map)
      | None =>
          let* author := update_or_create_local_zd_user_for_remote_zd_user
                           (RemoteComment.author remote_comment) in
          ret (ZendeskUser.id author,
               user_map ++ [(RemoteComment.author remote_comment, ZendeskUser.id author)])
      end b = (Ok (author, user_map'), b1)
      ∧ sim_db F T1 a1 b1) as (b1 & T1 & Hauthor2 & Hsim1).
    { destruct (user_map_get user_map (RemoteComment.author remote_comment)).
      - injection Hauthor as <- <- <-. by exists b, T.
      - apply bind_ok_inv in Hauthor as (u & a1' & Hu & Hret).
        injection Hret as <- <- ->.
        destruct (local_zd_user_rerun _ _ _ _ _ _ _ HwfF Hwf Hu Hext1F Hsim)
          as (b1 & T1 & Hu2 & Hsim1).
        exists b1, T1. split; [|done]. unfold bind. by rewrite Hu2. }
    (* the comment, again *)
    destruct (on_comments_rerun _ _ _ _ _ _ _ _ _ HwfF Hwf1 Hcomment HextF Hsim1)
      as (b2 & T2 & Hcomment2 & Hsim2).
    destruct (IH _ _ _ _ _ Hwf2 Hrun Hsim2) as (b' & T' & Hrest & Hsim').
    exists b', T'. split; [|done].
    simpl. unfold bind at 1. rewrite Hauthor2.
    unfold bind at 1. rewrite Hcomment2. exact Hrest.
Qed.

(** [update_or_create] creates exactly when no row has the lookup. *)
Lemma update_or_create_created_iff {R K V} `{ModelLaws R K V} (k : K) (v : V)
    (t t' : table R) (r : R) (created : bool) :
  update_or_create k v t = (Ok (r, created), t') ->
  created = true <-> k ∉ key_of <$> rows t.
Proof.
  intros Hup. apply update_or_create_ok in Hup
    as (_ & [(-> & Hnil & _)|(-> & r0 & Hone & _)]).
  - split; [|done]. intros _. by apply filter_key_nil.
  - split; [done|]. intros Hk. apply filter_key_nil in Hk. rewrite Hk in Hone. done.
Qed.

Lemma sync_ticket_twice (client : Client) (remote : RemoteTicket.t) (d0 d1 : DB)
    (t1 : Ticket.t) (created1 : bool) :
  db_wf d0 ->
  sync_ticket client remote d0 = (Ok (t1, created1), d1) ->
  db_wf d1
  ∧ (created1 = true <-> RemoteTicket.id remote ∉ Ticket.zendesk_id <$> rows (tickets d0))
  ∧ sync_ticket client remote d1 = (Ok (t1, false), d1).
Proof.
  intros Hwf0 Hrun. unfold sync_ticket in Hrun.
  apply bind_ok_inv in Hrun as (u & a1 & Hu & Hrun).
  apply bind_ok_inv in Hrun as ([local_ticket created] & a2 & Hticket & Hrun).
  apply bind_ok_inv in Hrun as (sorted & F & Hcomments & Hret).
  injection Hret as -> -> ->.
  unfold sync_comments in Hcomments.
  apply bind_ok_inv in Hcomments as (remote_comments & a2' & Hfetch & Hcomments).
  unfold lift in Hfetch. injection Hfetch as Hfetch <-.
  apply bind_ok_inv in Hcomments as (local_comments & F' & Hloop & Hret).
  injection Hret as <- ->.
  destruct (local_zd_user_ok _ _ _ _ Hwf0 Hu) as [Hwf1 Hext1].
  destruct (on_tickets_ok _ _ _ _ _ _ Hwf1 Hticket) as [Hwf2 Hext2].
  destruct (sync_comments_loop_ok _ _ _ _ _ _ _ Hwf2 Hloop) as [HwfF HextF].
  assert (ext_db a1 d1) as Hext1F by (eapply ext_db_trans; eauto).
  split; [done|]. split.
  - pose proof (local_zd_user_frame (RemoteTicket.requester remote) d0) as [Htk _].
    rewrite Hu in Htk. simpl in Htk. rewrite <- Htk.
    unfold on_tickets in Hticket.
    destruct (update_or_create _ _ (tickets a1)) as [[[r c]|e] t] eqn:Hup; [|done].
    injection Hticket as -> -> _.
    exact (update_or_create_created_iff _ _ _ _ _ _ Hup).
  - destruct (local_zd_user_rerun _ _ _ _ _ _ _ HwfF Hwf0 Hu Hext1F (sim_db_start d1 d0))
      as (b1 & T1 & Hu2 & Hsim1).
    destruct (on_tickets_rerun _ _ _ _ _ _ _ _ _ HwfF Hwf1 Hticket HextF Hsim1)
      as (b2 & T2 & Hticket2 & Hsim2).
    destruct (sync_comments_loop_rerun _ _ _ _ _ _ _ _ _ HwfF Hwf2 Hloop Hsim2)
      as (b' & T' & Hloop2 & Hsim').
    apply sim_db_final in Hsim'; [|done]. subst b'.
    unfold sync_ticket. unfold bind at 1. rewrite Hu2.
    unfold bind at 1. rewrite Hticket2.
    unfold bind at 1. unfold sync_comments. unfold bind at 1. unfold lift.
    rewrite Hfetch. unfold bind at 1. rewrite Hloop2. done.
Qed.

Lemma db_local_ada_wf : db_wf db_local_ada.
Proof. repeat split; constructor. Qed.

(** ** The scope of comment uniqueness *)

Lemma db_ticket_42_synced_comments_wf : table_wf (comments db_ticket_42_synced).
Proof.
  split; [|split].
  - apply (bool_decide_unpack _). vm_compute. reflexivity.
  - apply (bool_decide_unpack _). vm_compute. reflexivity.
  - repeat constructor.
Qed.

(** C10, as stated, fails: with comment 501 stored under ticket 42, the
    sync of ticket 43, a distinct ticket that the remote side hands out
    with comment 501 too, is refused with an integrity error; the comment
    cannot exist under each of the two tickets. *)
Lemma comment_remote_id_is_unique_across_tickets :
  local_comment_501 ∈ rows (comments db_ticket_42_synced)
  ∧ RemoteTicket.id remote_ticket_43 ≠ Ticket.zendesk_id local_ticket_42
  ∧ client_tickets_comments client_two_tickets 43 = Ok [remote_comment_501]
  ∧ fst (sync_ticket_id client_two_tickets 43 db_ticket_42_synced) = Raise IntegrityError
  ∧ comments (snd (sync_ticket_id client_two_tickets 43 db_ticket_42_synced))
    = comments db_ticket_42_synced.
Proof.
  split; [by left|]. split; [discriminate|]. repeat split; vm_compute; reflexivity.
Qed.

(** * Further properties of the code *)

(** ** The sort of [sync_comments] *)

Lemma comment_key_le_total (a b : Comment.t) :
  comment_key_le a b = false -> comment_key_le b a = true.
Proof. unfold comment_key_le. lia. Qed.

Lemma sort_insert_perm (c : Comment.t) (l : list Comment.t) : sort_insert c l ≡ₚ c :: l.
Proof.
  induction l as [|x l IH]; simpl; [done|].
  destruct (comment_key_le x c); [|done].
  rewrite IH. apply Permutation_swap.
Qed.

Lemma sort_insert_HdRel (x c : Comment.t) (l : list Comment.t) :
  comment_le x c -> HdRel comment_le x l -> HdRel comment_le x (sort_insert c l).
Proof.
  intros Hxc Hhd. destruct l as [|y l]; simpl; [by constructor|].
  destruct (comment_key_le y c); constructor; [|done].
  by inversion Hhd.
Qed.

Lemma sort_insert_sorted (c : Comment.t) (l : list Comment.t) :
  Sorted comment_le l -> Sorted comment_le (sort_insert c l).
Proof.
  induction 1 as [|x l Hs IH Hhd]; simpl; [by repeat constructor|].
  destruct (comment_key_le x c) eqn:Hxc.
  - constructor; [done|]. by apply sort_insert_HdRel.
  - constructor; [by constructor|]. constructor. by apply comment_key_le_total.
Qed.

Lemma sort_comments_foldl (l sorted : list Comment.t) :
  Sorted comment_le sorted ->
  Sorted comment_le (foldl (fun sorted c => sort_insert c sorted) sorted l)
  ∧ foldl (fun sorted c => sort_insert c sorted) sorted l ≡ₚ sorted ++ l.
Proof.
  revert sorted. induction l as [|c l IH]; intros sorted Hs; simpl.
  - by rewrite app_nil_r.
  - destruct (IH (sort_insert c sorted) (sort_insert_sorted c sorted Hs)) as [Hs' Hp].
    split; [done|]. rewrite Hp, sort_insert_perm. simpl. apply Permutation_middle.
Qed.

Lemma sort_comments_sorted_permutation_aux (l : list Comment.t) :
  Sorted comment_le (sort_comments l) ∧ sort_comments l ≡ₚ l.
Proof.
  unfold sort_comments.
  destruct (sort_comments_foldl l []) as [Hs Hp]; [constructor|]. by split.
Qed.

(** ** What [sync_comments] returns *)

Lemma comment_upsert_mirrors (remote_comment : RemoteComment.t) (ticket author : Z)
    (a a1 : DB) (c : Comment.t) (created : bool) :
  on_comments (update_or_create (RemoteComment.id remote_comment, ticket)
                 {| Comment.d_author := author;
                    Comment.d_body := RemoteComment.body remote_comment;
                    Comment.d_public := RemoteComment.public remote_comment;
                    Comment.d_created_at := RemoteComment.created_at remote_comment |}) a
  = (Ok (c, created), a1) ->
  mirrors ticket remote_comment c ∧ Comment.author c = author.
Proof.
  unfold on_comments.
  destruct (update_or_create _ _ (comments a)) as [[[r cr]|e] t] eqn:Hup; [|done].
  intros [= <- _ _].
  apply update_or_create_ok in Hup
    as (_ & [(_ & _ & _ & -> & _)|(_ & r0 & _ & -> & _)]); by repeat split.
Qed.

Lemma sync_comments_loop_output (remote_comments : list RemoteComment.t)
    (local_ticket : Ticket.t) (user_map : list (RemoteUser.t * Z))
    (local_comments out : list Comment.t) (a F : DB) :
  sync_comments_loop remote_comments local_ticket user_map local_comments a = (Ok out, F) ->
  ∃ new, out = local_comments ++ new
         ∧ Forall2 (mirrors (Ticket.id local_ticket)) remote_comments new.
Proof.
  revert user_map local_comments a.
  induction remote_comments as [|remote_comment rest IH];
    intros user_map local_comments a Hrun.
  - injection Hrun as <- _. exists []. split; [by rewrite app_nil_r|constructor].
  - simpl in Hrun.
    apply bind_ok_inv in Hrun as ([author user_map'] & a1 & Hauthor & Hrun).
    apply bind_ok_inv in Hrun as ([local_comment created] & a2 & Hcomment & Hrun).
    apply comment_upsert_mirrors in Hcomment as [Hmirror _].
    apply IH in Hrun as (new & -> & Hnew).
    exists (local_comment :: new). split; [by rewrite <- app_assoc|].
    by constructor.
Qed.

(** X1. When [sync_comments] goes through, what it returns is, in
    increasing order of [(created_at, id)], one local comment for each
    comment the remote side lists: under the local ticket, with the remote
    comment's id, body, visibility and timestamp. *)
Theorem sync_comments_returns_sorted_mirrors :
  ∀ (client : Client) (zd_ticket : RemoteTicket.t) (local_ticket : Ticket.t)
    (d d' : DB) (returned : list Comment.t),
    sync_comments client zd_ticket local_ticket d = (Ok returned, d') ->
    ∃ (remote_comments : list RemoteComment.t) (local_comments : list Comment.t),
      client_tickets_comments client (RemoteTicket.id zd_ticket) = Ok remote_comments
      ∧ Forall2 (mirrors (Ticket.id local_ticket)) remote_comments local_comments
      ∧ returned ≡ₚ local_comments
      ∧ Sorted comment_le returned.
Proof.
  intros client zd_ticket local_ticket d d' returned Hrun.
  unfold sync_comments in Hrun.
  apply bind_ok_inv in Hrun as (remote_comments & d1 & Hfetch & Hrun).
  unfold lift in Hfetch. injection Hfetch as Hfetch <-.
  apply bind_ok_inv in Hrun as (local_comments & d2 & Hloop & Hret).
  injection Hret as <- _.
  apply sync_comments_loop_output in Hloop as (new & -> & Hnew).
  exists remote_comments, new. split; [done|]. split; [done|].
  destruct (sort_comments_sorted_permutation_aux new) as [Hs Hp]. by split.
Qed.

Lemma sync_comments_returns_sorted_mirrors_witness :
  ∃ (remote_comments : list RemoteComment.t) (local_comments : list Comment.t),
    client_tickets_comments client_two_tickets 42 = Ok remote_comments
    ∧ Forall2 (mirrors 1) remote_comments local_comments
    ∧ [local_comment_501; local_comment_502] ≡ₚ local_comments
    ∧ Sorted comment_le [local_comment_501; local_comment_502].
Proof.
  apply (sync_comments_returns_sorted_mirrors client_two_tickets remote_ticket_42
           local_ticket_42 db_ticket_42_synced db_ticket_42_synced).
  vm_compute. reflexivity.
Defined.

(** ** The schema is kept on every path *)

Lemma update_or_create_all_paths {R K V} `{ModelLaws R K V} (k : K) (v : V) (t : table R) :
  table_wf t ->
  table_wf (snd (update_or_create k v t))
  ∧ index t `prefix_of` index (snd (update_or_create k v t)).
Proof.
  intros Hwf. destruct (update_or_create k v t) as [[[r created]|e] t'] eqn:Hup; simpl.
  - apply (update_or_create_wf _ _ _ _ _ _ Hwf) in Hup as (? & ? & _). by split.
  - apply update_or_create_raise in Hup as ->. by split.
Qed.

Lemma ret_keeps_schema {A} (a : A) : keeps_schema (ret a).
Proof. intros d Hwf. split; [done|apply ext_db_refl]. Qed.

Lemma lift_keeps_schema {A} (r : result A) : keeps_schema (lift r).
Proof. intros d Hwf. split; [done|apply ext_db_refl]. Qed.

Lemma get_db_keeps_schema {A} (f : DB -> A) : keeps_schema (get_db f).
Proof. intros d Hwf. split; [done|apply ext_db_refl]. Qed.

Lemma bind_keeps_schema {A B} (c : M DB A) (k : A -> M DB B) :
  keeps_schema c -> (∀ a, keeps_schema (k a)) -> keeps_schema (bind c k).
Proof.
  intros Hc Hk d Hwf. unfold bind. destruct (Hc d Hwf) as [Hwf1 Hext1].
  destruct (c d) as [[a|e] d1]; simpl in *; [|by split].
  destruct (Hk a d1 Hwf1) as [Hwf2 Hext2]. split; [done|].
  by eapply ext_db_trans.
Qed.

Lemma on_users_keeps_schema (k : Z) (v : ZendeskUser.defaults) :
  keeps_schema (on_users (update_or_create k v)).
Proof.
  intros d (Hu & Ht & Hc). unfold on_users.
  destruct (update_or_create_all_paths k v (users d) Hu) as [Hwf Hpre].
  destruct (update_or_create k v (users d)) as [r t]. simpl in *.
  split; [done|]. unfold ext_db. simpl. split; [exact Hpre|done].
Qed.

Lemma on_tickets_keeps_schema (k : Z) (v : Ticket.defaults) :
  keeps_schema (on_tickets (update_or_create k v)).
Proof.
  intros d (Hu & Ht & Hc). unfold on_tickets.
  destruct (update_or_create_all_paths k v (tickets d) Ht) as [Hwf Hpre].
  destruct (update_or_create k v (tickets d)) as [r t]. simpl in *.
  split; [done|]. unfold ext_db. simpl. split; [done|]. split; [exact Hpre|done].
Qed.

Lemma on_comments_keeps_schema (k : Z * Z) (v : Comment.defaults) :
  keeps_schema (on_comments (update_or_create k v)).
Proof.
  intros d (Hu & Ht & Hc). unfold on_comments.
  destruct (update_or_create_all_paths k v (comments d) Hc) as [Hwf Hpre].
  destruct (update_or_create k v (comments d)) as [r t]. simpl in *.
  split; [done|]. unfold ext_db. simpl. split; [done|]. split; [done|].
  split; [exact Hpre|done].
Qed.

Lemma local_zd_user_keeps_schema (remote : RemoteUser.t) :
  keeps_schema (update_or_create_local_zd_user_for_remote_zd_user remote).
Proof.
  unfold update_or_create_local_zd_user_for_remote_zd_user.
  apply bind_keeps_schema; [apply get_db_keeps_schema|]. intros local_user.
  apply bind_keeps_schema; [apply on_users_keeps_schema|].
  intros [instance created]. apply ret_keeps_schema.
Qed.

Lemma sync_comments_loop_keeps_schema (remote_comments : list RemoteComment.t)
    (local_ticket : Ticket.t) (user_map : list (RemoteUser.t * Z))
    (local_comments : list Comment.t) :
  keeps_schema (sync_comments_loop remote_comments local_ticket user_map local_comments).
Proof.
  revert user_map local_comments.
  induction remote_comments as [|remote_comment rest IH]; intros user_map local_comments;
    simpl; [apply ret_keeps_schema|].
  apply bind_keeps_schema.
  - destruct (user_map_get user_map (RemoteComment.author remote_comment));
      [apply ret_keeps_schema|].
    apply bind_keeps_schema; [apply local_zd_user_keeps_schema|].
    intros author. apply ret_keeps_schema.
  - intros [author user_map'].
    apply bind_keeps_schema; [apply on_comments_keeps_schema|].
    intros [local_comment created]. apply IH.
Qed.

Lemma sync_comments_keeps_schema_aux (client : Client) (zd_ticket : RemoteTicket.t)
    (local_ticket : Ticket.t) :
  keeps_schema (sync_comments client zd_ticket local_ticket).
Proof.
  unfold sync_comments.
  apply bind_keeps_schema; [apply lift_keeps_schema|]. intros remote_comments.
  apply bind_keeps_schema; [apply sync_comments_loop_keeps_schema|].
  intros local_comments. apply ret_keeps_schema.
Qed.

Lemma sync_ticket_keeps_schema (client : Client) (remote : RemoteTicket.t) :
  keeps_schema (sync_ticket client remote).
Proof.
  unfold sync_ticket.
  apply bind_keeps_schema; [apply local_zd_user_keeps_schema|]. intros local_zd_user.
  apply bind_keeps_schema; [apply on_tickets_keeps_schema|].
  intros [local_ticket created].
  apply bind_keeps_schema; [|intros _; apply ret_keeps_schema].
  apply sync_comments_keeps_schema_aux.
Qed.

Lemma db_ticket_42_synced_wf : db_wf db_ticket_42_synced.
Proof.
  split; [|split; [|exact db_ticket_42_synced_comments_wf]].
  - split; [|split].
    + apply (bool_decide_unpack _). vm_compute. reflexivity.
    + apply (bool_decide_unpack _). vm_compute. reflexivity.
    + repeat constructor.
  - split; [|split].
    + apply (bool_decide_unpack _). vm_compute. reflexivity.
    + apply (bool_decide_unpack _). vm_compute. reflexivity.
    + repeat constructor.
Qed.

(** X2. Whether it goes through or raises half-way, a sync started on a
    database that satisfies the schema leaves one that does: primary keys
    and remote ids stay distinct in the three tables.  It deletes no row
    and changes no row's primary key or lookup, adds rows at the end only,
    and leaves the events and the local accounts alone. *)
Theorem sync_ticket_id_keeps_schema :
  ∀ (client : Client) (ticket_id : Z) (d : DB),
    db_wf d ->
    db_wf (snd (sync_ticket_id client ticket_id d))
    ∧ ext_db d (snd (sync_ticket_id client ticket_id d)).
Proof.
  intros client ticket_id. unfold sync_ticket_id.
  apply bind_keeps_schema; [apply lift_keeps_schema|].
  intros remote. apply sync_ticket_keeps_schema.
Qed.

(** The sync of ticket 43 is refused at its comment, after the ticket row
    is written: what it leaves still satisfies the schema. *)
Lemma sync_ticket_id_keeps_schema_witness :
  fst (sync_ticket_id client_two_tickets 43 db_ticket_42_synced) = Raise IntegrityError
  ∧ db_wf (snd (sync_ticket_id client_two_tickets 43 db_ticket_42_synced))
  ∧ ext_db db_ticket_42_synced (snd (sync_ticket_id client_two_tickets 43 db_ticket_42_synced)).
Proof.
  split; [vm_compute; reflexivity|].
  apply (sync_ticket_id_keeps_schema client_two_tickets 43 db_ticket_42_synced).
  exact db_ticket_42_synced_wf.
Defined.

(** ** What a sync stores *)

Lemma bind_frame {X A B} (f : DB -> X) (c : M DB A) (k : A -> M DB B) (d : DB) :
  f (snd (c d)) = f d ->
  (∀ a d1, f (snd (k a d1)) = f d1) ->
  f (snd (bind c k d)) = f d.
Proof.
  intros Hc Hk. unfold bind. destruct (c d) as [[a|e] d1]; simpl in *; [|done].
  by rewrite Hk.
Qed.

Lemma sync_comments_loop_tickets (remote_comments : list RemoteComment.t)
    (local_ticket : Ticket.t) (user_map : list (RemoteUser.t * Z))
    (local_comments : list Comment.t) (d : DB) :
  tickets (snd (sync_comments_loop remote_comments local_ticket user_map local_comments d))
  = tickets d.
Proof.
  revert user_map local_comments d.
  induction remote_comments as [|remote_comment rest IH]; intros user_map local_comments d;
    [done|].
  simpl. apply (bind_frame tickets).
  - destruct (user_map_get user_map (RemoteComment.author remote_comment)); [done|].
    apply (bind_frame tickets); [apply local_zd_user_frame|done].
  - intros [author user_map'] d1. apply (bind_frame tickets).
    + unfold on_comments. by destruct (update_or_create _ _ (comments d1)).
    + intros [local_comment created] d2. apply IH.
Qed.

Lemma sync_comments_tickets (client : Client) (zd_ticket : RemoteTicket.t)
    (local_ticket : Ticket.t) (d : DB) :
  tickets (snd (sync_comments client zd_ticket local_ticket d)) = tickets d.
Proof.
  unfold sync_comments. apply (bind_frame tickets); [done|]. intros remote_comments d1.
  apply (bind_frame tickets); [apply sync_comments_loop_tickets|done].
Qed.

(** What the upsert of a remote user returns, and where it is. *)
Lemma local_zd_user_returned (remote : RemoteUser.t) (a a1 : DB) (u : ZendeskUser.t) :
  db_wf a ->
  update_or_create_local_zd_user_for_remote_zd_user remote a = (Ok u, a1) ->
  u ∈ rows (users a1) ∧ user_mirrors remote a u.
Proof.
  intros (Hu & _ & _). rewrite local_zd_user_unfold.
  destruct (update_or_create _ _ (users a)) as [[[instance created]|e] t] eqn:Hup;
    [|done].
  intros [= <- <-]. simpl.
  pose proof (update_or_create_wf _ _ _ _ _ _ Hu Hup) as (_ & _ & Hin & _).
  split; [done|].
  apply update_or_create_ok in Hup
    as (_ & [(_ & _ & _ & -> & _)|(_ & r0 & _ & -> & _)]); by repeat split.
Qed.

(** A row of a table the first run went through has a row with its primary
    key and lookup in the table the run ends with. *)
Lemma prefix_index_member {R K V} `{Model R K V} (t F : table R) (r : R) :
  index t `prefix_of` index F -> r ∈ rows t ->
  ∃ r', r' ∈ rows F ∧ key_of r' = key_of r ∧ pk r' = pk r.
Proof.
  intros Hpre Hr.
  assert ((key_of r, pk r) ∈ index F) as Hin.
  { eapply elem_of_prefix; [|exact Hpre]. unfold index.
    by apply (list_elem_of_fmap_2 (fun x => (key_of x, pk x))). }
  unfold index in Hin. apply list_elem_of_fmap in Hin as (r' & Heq & Hr').
  injection Heq as Hk Hp. by exists r'.
Qed.

Lemma sync_ticket_stores_remote_truth_aux :
  ∀ (client : Client) (remote : RemoteTicket.t) (d d' : DB) (t : Ticket.t)
    (created : bool),
    db_wf d ->
    sync_ticket client remote d = (Ok (t, created), d') ->
    t ∈ rows (tickets d')
    ∧ ticket_mirrors remote t
    ∧ ∃ u, u ∈ rows (users d')
           ∧ ZendeskUser.zendesk_id u = RemoteUser.id (RemoteTicket.requester remote)
           ∧ Ticket.requester t = ZendeskUser.id u.
Proof.
  intros client remote d d' t created Hwf Hrun. unfold sync_ticket in Hrun.
  apply bind_ok_inv in Hrun as (u & a1 & Hu & Hrun).
  apply bind_ok_inv in Hrun as ([local_ticket c] & a2 & Hticket & Hrun).
  apply bind_ok_inv in Hrun as (sorted & F & Hcomments & Hret).
  injection Hret as -> -> ->.
  destruct (local_zd_user_ok _ _ _ _ Hwf Hu) as [Hwf1 _].
  destruct (local_zd_user_returned _ _ _ _ Hwf Hu) as [Hin (Hzid & _)].
  destruct (on_tickets_ok _ _ _ _ _ _ Hwf1 Hticket) as [Hwf2 Hext2].
  pose proof (sync_comments_keeps_schema_aux client remote t a2 Hwf2) as [_ Hext3].
  rewrite Hcomments in Hext3. simpl in Hext3.
  assert (ext_db a1 d') as (Hpre & _) by (by eapply ext_db_trans).
  pose proof (sync_comments_tickets client remote t a2) as Htk.
  rewrite Hcomments in Htk. simpl in Htk.
  unfold on_tickets in Hticket.
  destruct (update_or_create _ _ (tickets a1)) as [[[r cr]|e] tt'] eqn:Hup; [|done].
  injection Hticket as -> -> <-. simpl in *.
  destruct Hwf1 as (_ & Ht1 & _).
  pose proof (update_or_create_wf _ _ _ _ _ _ Ht1 Hup) as (_ & _ & Hrow & _).
  split; [by rewrite Htk|]. split.
  - apply update_or_create_ok in Hup
      as (_ & [(_ & _ & _ & -> & _)|(_ & r0 & _ & -> & _)]); by repeat split.
  - destruct (prefix_index_member _ _ _ Hpre Hin) as (u' & Hu' & Hk & Hp).
    exists u'. split; [done|]. split; [simpl in Hk; congruence|].
    apply update_or_create_ok in Hup
      as (_ & [(_ & _ & _ & -> & _)|(_ & r0 & _ & -> & _)]); simpl in *; congruence.
Qed.

(** X3. A sync that goes through on a database satisfying the schema
    returns a ticket that is a row of the ticket table and holds what the
    remote ticket holds in every field (the status being the constant of
    the lower-cased remote status), and whose requester is the row of the
    user table with the remote requester's id. *)
Theorem sync_ticket_stores_remote_truth :
  ∀ (client : Client) (remote : RemoteTicket.t) (d d' : DB) (t : Ticket.t)
    (created : bool),
    db_wf d ->
    sync_ticket client remote d = (Ok (t, created), d') ->
    t ∈ rows (tickets d')
    ∧ ticket_mirrors remote t
    ∧ ∃ u, u ∈ rows (users d')
           ∧ ZendeskUser.zendesk_id u = RemoteUser.id (RemoteTicket.requester remote)
           ∧ Ticket.requester t = ZendeskUser.id u.
Proof. exact sync_ticket_stores_remote_truth_aux. Qed.

Lemma sync_ticket_stores_remote_truth_witness :
  local_ticket_42 ∈ rows (tickets db_ticket_42_synced)
  ∧ ticket_mirrors remote_ticket_42 local_ticket_42
  ∧ ∃ u, u ∈ rows (users db_ticket_42_synced)
         ∧ ZendeskUser.zendesk_id u = 9001
         ∧ Ticket.requester local_ticket_42 = ZendeskUser.id u.
Proof.
  apply (sync_ticket_stores_remote_truth client_two_tickets remote_ticket_42 db_local_ada
           db_ticket_42_synced local_ticket_42 true).
  - exact db_local_ada_wf.
  - vm_compute. reflexivity.
Defined.

(** ** The cache of remote users *)

Lemma get_local_user_for_external_id_link (i : Z) (d : DB) :
  LocalUser.id <$> get_local_user_for_external_id (Some i) d
  = if bool_decide (i ∈ LocalUser.id <$> local_users d) then Some i else None.
Proof.
  unfold get_local_user_for_external_id.
  induction (local_users d) as [|x l IH]; [done|].
  rewrite filter_cons. destruct (decide (LocalUser.id x = i)) as [Hx|Hx].
  - simpl. rewrite bool_decide_eq_true_2; [by rewrite Hx|]. rewrite <- Hx. by left.
  - rewrite IH. apply (f_equal (fun b : bool => if b then Some i else None)).
    apply bool_decide_ext. rewrite fmap_cons, elem_of_cons.
    split; [by right|]. intros [Heq|Hin]; [by exfalso; apply Hx|done].
Qed.

(** X4. The upsert of a remote user into the local cache, when it goes
    through on a database satisfying the schema, returns a row of the user
    table that holds the remote user's id, name, email and creation time,
    linked to the local account whose id is the remote user's external id
    when there is such an account and to none otherwise; it writes to the
    user table only, and done again at once it returns the same row and
    changes nothing. *)
Theorem local_zd_user_upsert_mirrors_and_is_idempotent :
  ∀ (remote : RemoteUser.t) (d d' : DB) (u : ZendeskUser.t),
    db_wf d ->
    update_or_create_local_zd_user_for_remote_zd_user remote d = (Ok u, d') ->
    u ∈ rows (users d')
    ∧ user_mirrors remote d u
    ∧ ZendeskUser.user u
      = match RemoteUser.external_id remote with
        | Some i => if bool_decide (i ∈ LocalUser.id <$> local_users d) then Some i else None
        | None => None
        end
    ∧ tickets d' = tickets d ∧ comments d' = comments d ∧ events d' = events d
    ∧ update_or_create_local_zd_user_for_remote_zd_user remote d' = (Ok u, d').
Proof.
  intros remote d d' u Hwf Hrun.
  destruct (local_zd_user_returned _ _ _ _ Hwf Hrun) as [Hin Hm].
  destruct (local_zd_user_ok _ _ _ _ Hwf Hrun) as [Hwf' Hext].
  split; [done|]. split; [done|]. split.
  - destruct Hm as (_ & _ & _ & _ & ->).
    destruct (RemoteUser.external_id remote) as [i|]; [|done].
    apply get_local_user_for_external_id_link.
  - pose proof (local_zd_user_frame remote d) as [Htk Hc].
    pose proof (local_zd_user_same_events remote d) as [Hev _].
    rewrite Hrun in Htk, Hc, Hev. simpl in *. split; [done|]. split; [done|].
    split; [done|].
    destruct (local_zd_user_rerun d' d d' d' (mkTouched [] [] []) remote u Hwf' Hwf Hrun
                (ext_db_refl d') (sim_db_start d' d)) as (b1 & T1 & Hagain & Hsim).
    apply sim_db_final in Hsim; [|done]. by subst b1.
Qed.

Lemma local_zd_user_upsert_mirrors_and_is_idempotent_witness :
  local_grace_cached ∈ rows (users db_ticket_42_synced)
  ∧ ZendeskUser.user local_grace_cached = Some 7
  ∧ update_or_create_local_zd_user_for_remote_zd_user remote_grace db_ticket_42_synced
    = (Ok local_grace_cached, db_ticket_42_synced).
Proof.
  destruct (local_zd_user_upsert_mirrors_and_is_idempotent remote_grace
              (mkDB (Table [local_ada_cached] 2) (Table [local_ticket_42] 2)
                    (Table [local_comment_501; local_comment_502] 3) empty_table [local_ada])
              db_ticket_42_synced local_grace_cached)
    as (Hin & _ & Hlink & _ & _ & _ & Hagain).
  - split; [|split; [|exact db_ticket_42_synced_comments_wf]].
    + split; [|split]; [apply (bool_decide_unpack _); vm_compute; reflexivity
                       |apply (bool_decide_unpack _); vm_compute; reflexivity
                       |repeat constructor].
    + split; [|split]; [apply (bool_decide_unpack _); vm_compute; reflexivity
                       |apply (bool_decide_unpack _); vm_compute; reflexivity
                       |repeat constructor].
  - vm_compute. reflexivity.
  - split; [exact Hin|]. split; [exact Hlink|exact Hagain].
Defined.

(** ** The comments a sync stores *)

Lemma author_step_ok (user_map user_map' : list (RemoteUser.t * Z))
    (remote : RemoteUser.t) (author : Z) (a a1 : DB) :
  db_wf a ->
  match user_map_get user_map remote with
  | Some author => ret (author, user_map)
  | None =>
      let* author := update_or_create_local_zd_user_for_remote_zd_user remote in
      ret (ZendeskUser.id author, user_map ++ [(remote, ZendeskUser.id author)])
  end a = (Ok (author, user_map'), a1) ->
  db_wf a1 ∧ comments a1 = comments a.
Proof.
  intros Hwf Hauthor. destruct (user_map_get user_map remote).
  - by injection Hauthor as _ _ <-.
  - apply bind_ok_inv in Hauthor as (u & a1' & Hu & Hret).
    injection Hret as _ _ <-.
    destruct (local_zd_user_ok _ _ _ _ Hwf Hu) as [Hwf1 _]. split; [done|].
    pose proof (local_zd_user_frame remote a) as [_ Hc]. by rewrite Hu in Hc.
Qed.

Lemma sync_comments_loop_keeps_row (remote_comments : list RemoteComment.t)
    (local_ticket : Ticket.t) (user_map : list (RemoteUser.t * Z))
    (local_comments out : list Comment.t) (a F : DB) (x : Comment.t) :
  db_wf a ->
  sync_comments_loop remote_comments local_ticket user_map local_comments a = (Ok out, F) ->
  x ∈ rows (comments a) ->
  (∀ rc, rc ∈ remote_comments -> RemoteComment.id rc ≠ Comment.zendesk_id x) ->
  x ∈ rows (comments F).
Proof.
  revert user_map local_comments a.
  induction remote_comments as [|remote_comment rest IH];
    intros user_map local_comments a Hwf Hrun Hx Hother.
  - by injection Hrun as _ <-.
  - simpl in Hrun.
    apply bind_ok_inv in Hrun as ([author user_map'] & a1 & Hauthor & Hrun).
    apply bind_ok_inv in Hrun as ([local_comment created] & a2 & Hcomment & Hrun).
    destruct (author_step_ok _ _ _ _ _ _ Hwf Hauthor) as [Hwf1 Hc1].
    destruct (on_comments_ok _ _ _ _ _ _ Hwf1 Hcomment) as [Hwf2 _].
    apply (IH _ _ _ Hwf2 Hrun).
    + unfold on_comments in Hcomment.
      destruct (update_or_create _ _ (comments a1)) as [[[r cr]|e] t] eqn:Hup; [|done].
      injection Hcomment as _ _ <-. simpl.
      destruct Hwf1 as (_ & _ & Hwc).
      apply (update_or_create_keeps_others _ _ _ _ _ _ _ Hwc Hup); [by rewrite Hc1|].
      intros Hk. injection Hk as Hz _.
      apply (Hother remote_comment); [by left|done].
    + intros rc Hrc. apply Hother. by right.
Qed.

Lemma sync_comments_loop_stored (remote_comments : list RemoteComment.t)
    (local_ticket : Ticket.t) (user_map : list (RemoteUser.t * Z))
    (local_comments out : list Comment.t) (a F : DB) :
  db_wf a ->
  NoDup (RemoteComment.id <$> remote_comments) ->
  sync_comments_loop remote_comments local_ticket user_map local_comments a = (Ok out, F) ->
  ∃ new, out = local_comments ++ new
         ∧ Forall2 (mirrors (Ticket.id local_ticket)) remote_comments new
         ∧ Forall (fun c => c ∈ rows (comments F)) new.
Proof.
  revert user_map local_comments a.
  induction remote_comments as [|remote_comment rest IH];
    intros user_map local_comments a Hwf Hnd Hrun.
  - injection Hrun as <- _. exists []. by rewrite app_nil_r.
  - simpl in Hrun. rewrite fmap_cons in Hnd. apply NoDup_cons in Hnd as [Hfresh Hnd].
    apply bind_ok_inv in Hrun as ([author user_map'] & a1 & Hauthor & Hrun).
    apply bind_ok_inv in Hrun as ([local_comment created] & a2 & Hcomment & Hrun).
    destruct (author_step_ok _ _ _ _ _ _ Hwf Hauthor) as [Hwf1 Hc1].
    destruct (on_comments_ok _ _ _ _ _ _ Hwf1 Hcomment) as [Hwf2 _].
    pose proof (comment_upsert_mirrors _ _ _ _ _ _ _ Hcomment) as [Hmirror _].
    assert (local_comment ∈ rows (comments a2)) as Hrow.
    { unfold on_comments in Hcomment.
      destruct (update_or_create _ _ (comments a1)) as [[[r cr]|e] t] eqn:Hup; [|done].
      injection Hcomment as -> _ <-. simpl. destruct Hwf1 as (_ & _ & Hwc).
      by apply (update_or_create_wf _ _ _ _ _ _ Hwc) in Hup as (_ & _ & ? & _). }
    pose proof (sync_comments_loop_keeps_row _ _ _ _ _ _ _ _ Hwf2 Hrun Hrow) as Hkept.
    destruct (IH _ _ _ Hwf2 Hnd Hrun) as (new & -> & Hnew & Hstored).
    exists (local_comment :: new). split; [by rewrite <- app_assoc|].
    split; [by constructor|]. constructor; [|done].
    apply Hkept. intros rc Hrc Hid. apply Hfresh.
    destruct Hmirror as (Hz & _). rewrite <- Hz, <- Hid.
    by apply list_elem_of_fmap_2.
Qed.

Lemma mirrors_ticket (ticket : Z) (remote_comments : list RemoteComment.t)
    (local_comments : list Comment.t) :
  Forall2 (mirrors ticket) remote_comments local_comments ->
  Forall (fun c => Comment.ticket c = ticket) local_comments.
Proof.
  induction 1 as [|rc lc rcs lcs Hm Hrest IH]; constructor; [|done].
  by destruct Hm as (_ & ? & _).
Qed.

(** X5. After a sync that goes through on a database satisfying the
    schema, the remote comments having distinct ids, the comments of the
    ticket include one row for each remote comment, with the remote
    comment's id, body, visibility and timestamp. *)
Theorem sync_ticket_stores_comments :
  ∀ (client : Client) (remote : RemoteTicket.t) (d d' : DB) (t : Ticket.t)
    (created : bool) (remote_comments : list RemoteComment.t),
    db_wf d ->
    sync_ticket client remote d = (Ok (t, created), d') ->
    client_tickets_comments client (RemoteTicket.id remote) = Ok remote_comments ->
    NoDup (RemoteComment.id <$> remote_comments) ->
    ∃ local_comments,
      Forall2 (mirrors (Ticket.id t)) remote_comments local_comments
      ∧ Forall (fun c => c ∈ ticket_comments_all t d') local_comments.
Proof.
  intros client remote d d' t created remote_comments Hwf Hrun Hfetch Hnd.
  unfold sync_ticket in Hrun.
  apply bind_ok_inv in Hrun as (u & a1 & Hu & Hrun).
  apply bind_ok_inv in Hrun as ([local_ticket c] & a2 & Hticket & Hrun).
  apply bind_ok_inv in Hrun as (sorted & F & Hcomments & Hret).
  injection Hret as -> -> ->.
  destruct (local_zd_user_ok _ _ _ _ Hwf Hu) as [Hwf1 _].
  destruct (on_tickets_ok _ _ _ _ _ _ Hwf1 Hticket) as [Hwf2 _].
  unfold sync_comments in Hcomments.
  apply bind_ok_inv in Hcomments as (rcs & a2' & Hfetch' & Hcomments).
  unfold lift in Hfetch'. rewrite Hfetch in Hfetch'. injection Hfetch' as <- <-.
  apply bind_ok_inv in Hcomments as (local_comments & F' & Hloop & Hret).
  injection Hret as _ <-.
  destruct (sync_comments_loop_stored _ _ _ _ _ _ _ Hwf2 Hnd Hloop)
    as (new & _ & Hnew & Hstored).
  exists new. split; [done|].
  pose proof (mirrors_ticket _ _ _ Hnew) as Hticketed.
  rewrite Forall_forall in Hstored, Hticketed. apply Forall_forall. intros c Hc.
  unfold ticket_comments_all. apply list_elem_of_filter. split; auto.
Qed.

Lemma sync_ticket_stores_comments_witness :
  ∃ local_comments,
    Forall2 (mirrors 1) [remote_comment_501; remote_comment_502] local_comments
    ∧ Forall (fun c => c ∈ ticket_comments_all local_ticket_42 db_ticket_42_synced)
             local_comments.
Proof.
  apply (sync_ticket_stores_comments client_two_tickets remote_ticket_42 db_local_ada
           db_ticket_42_synced local_ticket_42 true).
  - exact db_local_ada_wf.
  - vm_compute. reflexivity.
  - reflexivity.
  - apply (bool_decide_unpack _). vm_compute. reflexivity.
Defined.

(** ** The event store, on every payload *)

(** X7. Whatever the payload and whatever the outcome, [store_event]
    leaves a row holding the raw payload verbatim, under a fresh key and
    with neither ticket id, error nor ticket link, in the event table, and
    writes to no other table; when the keys in the table are below the
    counter, that row is the one change. *)
Theorem store_event_keeps_raw_payload :
  ∀ (json_loads : string -> result json) (int_of_str : string -> option Z)
    (data : string) (d : DB),
    let d' := snd (store_event json_loads int_of_str data d) in
    let row := Event.mk (next_id (events d)) data None None None in
    row ∈ rows (events d')
    ∧ next_id (events d') = next_id (events d) + 1
    ∧ users d' = users d ∧ tickets d' = tickets d ∧ comments d' = comments d
    ∧ local_users d' = local_users d
    ∧ (Forall (fun e => Event.id e < next_id (events d)) (rows (events d)) ->
       rows (events d') = rows (events d) ++ [row]).
Proof.
  intros json_loads int_of_str data d d' row.
  split; [apply store_event_persists|].
  subst d'. rewrite store_event_db.
  unfold bind, Event_objects_create, Event_save, on_events. simpl.
  case_bool_decide as Hin; simpl.
  - repeat split; try done. intros Hlt. rewrite fmap_app. simpl.
    rewrite bool_decide_eq_true_2 by done. f_equal.
    rewrite <- (list_fmap_id (rows (events d))) at 2.
    apply list_fmap_ext. intros i e He. simpl.
    rewrite bool_decide_eq_false_2; [done|].
    rewrite Forall_forall in Hlt. apply list_elem_of_lookup_2 in He.
    specialize (Hlt e He). lia.
  - exfalso. apply Hin. rewrite fmap_app. apply elem_of_app. right. by left.
Qed.

Lemma store_event_keeps_raw_payload_witness :
  rows (events (snd (store_event demo_json_loads demo_int_of_str payload_id_abc
                       (db world_with_event_42))))
  = [event_42; Event.mk 2 payload_id_abc None None None].
Proof.
  destruct (store_event_keeps_raw_payload demo_json_loads demo_int_of_str payload_id_abc
              (db world_with_event_42)) as (_ & _ & _ & _ & _ & _ & Hrows).
  apply Hrows. repeat constructor.
Defined.

(** X8. A payload that decodes to an object without [id], or with an [id]
    that is a string [int] rejects, is kept in the event table and answered
    with the validation error [`id` not found in data]. *)
Theorem store_event_signals_missing_id :
  ∀ (json_loads : string -> result json) (int_of_str : string -> option Z)
    (data : string) (j : json) (d : DB),
    json_loads data = Ok j ->
    (∃ k, getitem j "id" = Raise (KeyError k))
    ∨ (∃ s, getitem j "id" = Ok (JStr s) ∧ int_of_str s = None) ->
    fst (store_event json_loads int_of_str data d)
    = Raise (ValidationError "`id` not found in data")
    ∧ Event.mk (next_id (events d)) data None None None
        ∈ rows (events (snd (store_event json_loads int_of_str data d))).
Proof.
  intros json_loads int_of_str data j d Hj Hid. split.
  - by apply (store_event_missing_or_bad_id _ _ _ j).
  - apply store_event_persists.
Qed.

Lemma store_event_signals_missing_id_witness :
  fst (store_event demo_json_loads demo_int_of_str payload_no_id empty_db)
  = Raise (ValidationError "`id` not found in data")
  ∧ fst (store_event demo_json_loads demo_int_of_str payload_id_abc empty_db)
    = Raise (ValidationError "`id` not found in data").
Proof.
  split.
  - apply (store_event_signals_missing_id demo_json_loads demo_int_of_str payload_no_id
             (JDict [("subject"%string, JStr "hello")]) empty_db); [reflexivity|].
    left. by exists "id"%string.
  - apply (store_event_signals_missing_id demo_json_loads demo_int_of_str payload_id_abc
             (JDict [("id"%string, JStr "abc")]) empty_db); [reflexivity|].
    right. by exists "abc"%string.
Defined.

(** ** A processing that raises *)

(** X9. When the processing of a stored event raises, every write of the
    attempt is undone, the formatted exception is written on the event's
    row and on nothing else, no signal is sent, and the exception reaches
    the caller. *)
Theorem process_event_failure_is_rolled_back_and_recorded :
  ∀ (json_loads : string -> result json) (int_of_str : string -> option Z)
    (format_exc : exn -> string) (client : Client) (event : Event.t)
    (w w' : World) (e : exn),
    process_event json_loads int_of_str client event w = (Raise e, w') ->
    Event.id event ∈ Event.id <$> rows (events (db w)) ->
    process_event_and_record_errors json_loads int_of_str format_exc client event w
    = (Raise e, mkWorld (with_error_recorded event (format_exc e) (db w)) (sent w)).
Proof.
  intros json_loads int_of_str format_exc client event w w' e Hrun Hin.
  by apply (record_errors_failure _ _ _ _ _ _ w').
Qed.

(** The sync of ticket 43 writes the ticket row and is refused at its
    comment: the row is gone again, and the event carries the error. *)
Lemma process_event_failure_is_rolled_back_and_recorded_witness :
  process_event_and_record_errors demo_json_loads_43 demo_int_of_str demo_format_exc
    client_two_tickets event_43 world_with_event_43
  = (Raise IntegrityError,
     mkWorld (mkDB (users db_ticket_42_synced) (tickets db_ticket_42_synced)
                   (comments db_ticket_42_synced)
                   (Table [Event.mk 1 payload_id_43 None
                             (Some (demo_format_exc IntegrityError)) None] 2)
                   [local_ada]) [])
  ∧ List.length (rows (tickets (db (snd (process_event demo_json_loads_43 demo_int_of_str
                                           client_two_tickets event_43
                                           world_with_event_43))))) = 2%nat.
Proof.
  split; [|vm_compute; reflexivity].
  apply (process_event_failure_is_rolled_back_and_recorded demo_json_loads_43
           demo_int_of_str demo_format_exc client_two_tickets event_43 world_with_event_43
           (snd (process_event demo_json_loads_43 demo_int_of_str client_two_tickets
                   event_43 world_with_event_43))).
  - vm_compute. reflexivity.
  - simpl. by left.
Defined.

(** X10. When the processing raises and the event has no row in the event
    table, the writes of the attempt are undone all the same, but saving
    the error fails, and what reaches the caller is that [DatabaseError]
    in place of the exception of the processing. *)
Theorem process_event_failure_without_row :
  ∀ (json_loads : string -> result json) (int_of_str : string -> option Z)
    (format_exc : exn -> string) (client : Client) (event : Event.t)
    (w w' : World) (e : exn),
    process_event json_loads int_of_str client event w = (Raise e, w') ->
    Event.id event ∉ Event.id <$> rows (events (db w)) ->
    process_event_and_record_errors json_loads int_of_str format_exc client event w
    = (Raise DatabaseError, mkWorld (db w) (sent w)).
Proof.
  intros json_loads int_of_str format_exc client event w w' e Hrun Hin.
  pose proof (process_event_raise_sends_nothing _ _ _ _ _ _ _ Hrun) as Hsent.
  unfold process_event_and_record_errors, try_except, atomic. rewrite Hrun.
  unfold bind, on_db, Event_save_update_fields, on_events, raise. simpl.
  rewrite bool_decide_eq_false_2 by done. simpl. rewrite Hsent. by destruct (db w).
Qed.

Lemma process_event_failure_without_row_witness :
  process_event_and_record_errors demo_json_loads_43 demo_int_of_str demo_format_exc
    client_two_tickets event_43 world_without_event_43
  = (Raise DatabaseError, world_without_event_43).
Proof.
  apply (process_event_failure_without_row demo_json_loads_43 demo_int_of_str
           demo_format_exc client_two_tickets event_43 world_without_event_43
           (snd (process_event demo_json_loads_43 demo_int_of_str client_two_tickets
                   event_43 world_without_event_43)) IntegrityError).
  - vm_compute. reflexivity.
  - simpl. apply not_elem_of_nil.
Defined.

(** ** The created flag and the snapshot *)

Lemma created_flag_agrees_with_snapshot_aux :
  ∀ (client : Client) (ticket_id : Z) (remote : RemoteTicket.t) (d d' : DB)
    (post : Ticket.t) (created : bool),
    client_tickets client ticket_id = Ok remote ->
    RemoteTicket.id remote = ticket_id ->
    sync_ticket_id client ticket_id d = (Ok (post, created), d') ->
    (created = true <-> pre_sync_ticket_of ticket_id d = None)
    ∧ (created = true -> pre_sync_comments_of ticket_id d = []).
Proof.
  intros client ticket_id remote d d' post created Hfetch Hsame Hsync.
  assert (created = true <-> pre_sync_ticket_of ticket_id d = None) as Hiff.
  { unfold sync_ticket_id, bind at 1, lift in Hsync. rewrite Hfetch in Hsync.
    unfold sync_ticket in Hsync.
    apply bind_ok_inv in Hsync as (u & a1 & Hu & Hsync).
    apply bind_ok_inv in Hsync as ([local_ticket c] & a2 & Hticket & Hsync).
    apply bind_ok_inv in Hsync as (sorted & F & Hcomments & Hret).
    injection Hret as -> -> ->.
    pose proof (local_zd_user_frame (RemoteTicket.requester remote) d) as [Htk _].
    rewrite Hu in Htk. simpl in Htk.
    unfold on_tickets in Hticket.
    destruct (update_or_create _ _ (tickets a1)) as [[[r cr]|e] t] eqn:Hup; [|done].
    injection Hticket as -> -> _.
    rewrite (update_or_create_created_iff _ _ _ _ _ _ Hup), Htk, Hsame.
    rewrite <- filter_key_nil. unfold pre_sync_ticket_of.
    change (filter (fun x : Ticket.t => key_of x = ticket_id) (rows (tickets d)))
      with (filter (fun t => Ticket.zendesk_id t = ticket_id) (rows (tickets d))).
    by destruct (filter (fun t => Ticket.zendesk_id t = ticket_id) (rows (tickets d))). }
  split; [done|]. intros Hc. apply Hiff in Hc. unfold pre_sync_comments_of. by rewrite Hc.
Qed.

(** X11. When the client hands out the ticket under the id asked for, the
    created flag of a sync that goes through agrees with the snapshot the
    pipeline took before it: the ticket is reported created exactly when
    the snapshot found no ticket, and then the snapshot has no comments
    either. *)
Theorem created_flag_agrees_with_snapshot :
  ∀ (client : Client) (ticket_id : Z) (remote : RemoteTicket.t) (d d' : DB)
    (post : Ticket.t) (created : bool),
    client_tickets client ticket_id = Ok remote ->
    RemoteTicket.id remote = ticket_id ->
    sync_ticket_id client ticket_id d = (Ok (post, created), d') ->
    (created = true <-> pre_sync_ticket_of ticket_id d = None)
    ∧ (created = true -> pre_sync_comments_of ticket_id d = []).
Proof. exact created_flag_agrees_with_snapshot_aux. Qed.

Lemma created_flag_agrees_with_snapshot_witness :
  (true = true <-> pre_sync_ticket_of 42 db_local_ada = None)
  ∧ (false = true <-> pre_sync_ticket_of 42 db_ticket_42_synced = None).
Proof.
  split.
  - apply (created_flag_agrees_with_snapshot client_two_tickets 42 remote_ticket_42
             db_local_ada db_ticket_42_synced local_ticket_42 true);
      [reflexivity|reflexivity|vm_compute; reflexivity].
  - apply (created_flag_agrees_with_snapshot client_two_tickets 42 remote_ticket_42
             db_ticket_42_synced db_ticket_42_synced local_ticket_42 false);
      [reflexivity|reflexivity|vm_compute; reflexivity].
Defined.

(** ** A new ticket that already has comments *)

Lemma filter_all {A} (P : A -> Prop) `{!∀ x, Decision (P x)} (l : list A) :
  (∀ x, x ∈ l -> P x) -> filter P l = l.
Proof.
  induction l as [|a l IH]; intros Hall; [done|].
  rewrite filter_cons_True by (apply Hall; by left). f_equal.
  apply IH. intros x Hx. apply Hall. by right.
Qed.

Lemma get_new_comments_from_nothing (pre_ticket post_ticket : option Ticket.t)
    (l : list Comment.t) :
  get_new_comments pre_ticket post_ticket [] l = l.
Proof.
  unfold get_new_comments. destruct l as [|c l]; [done|].
  change (List.length [] <? List.length (c :: l))%nat with true. cbv iota.
  apply filter_all. intros x Hx.
  rewrite elem_of_difference, !elem_of_list_to_set. split.
  - by apply list_elem_of_fmap_2.
  - simpl. apply not_elem_of_nil.
Qed.

(** X12. When the client hands out the ticket under the id asked for, a
    ticket that the sync creates and that has comments after the sync is
    not announced by [ticket_created]: the one signal sent is
    [ticket_updated], with all the comments of the ticket as new comments,
    no changed field, and an empty pre-state. *)
Theorem new_ticket_with_comments_is_sent_as_update :
  ∀ (json_loads : string -> result json) (int_of_str : string -> option Z)
    (client : Client) (event : Event.t) (w : World) (ticket_id : Z)
    (remote : RemoteTicket.t) (post : Ticket.t) (d' : DB),
    event_ticket_id json_loads int_of_str event = Ok ticket_id ->
    client_tickets client ticket_id = Ok remote ->
    RemoteTicket.id remote = ticket_id ->
    sync_ticket_id client ticket_id (db w) = (Ok (post, true), d') ->
    ticket_comments_all post d' ≠ [] ->
    process_event json_loads int_of_str client event w
    = (Ok tt,
       mkWorld d'
         (sent w ++ [ticket_updated post (mkUpdates (ticket_comments_all post d') ∅)
                       (mkContext None (Some post) [] (ticket_comments_all post d'))])).
Proof.
  intros json_loads int_of_str client event w ticket_id remote post d'
    Hid Hfetch Hsame Hsync Hcomments.
  destruct (created_flag_agrees_with_snapshot_aux _ _ _ _ _ _ _ Hfetch Hsame Hsync)
    as [Hiff Hnone].
  rewrite (process_event_sync_ok json_loads int_of_str client event w ticket_id post true
             d' Hid Hsync).
  cbv zeta. rewrite (proj1 Hiff eq_refl), (Hnone eq_refl).
  rewrite bool_decide_eq_false_2 by done. cbn [andb].
  unfold get_updates. cbn [pre_ticket post_ticket pre_comments post_comments].
  by rewrite get_new_comments_from_nothing.
Qed.

Lemma new_ticket_with_comments_is_sent_as_update_witness :
  process_event demo_json_loads demo_int_of_str client_two_tickets event_42
    (mkWorld db_local_ada [])
  = (Ok tt,
     mkWorld db_ticket_42_synced
       [ticket_updated local_ticket_42
          (mkUpdates [local_comment_501; local_comment_502] ∅)
          (mkContext None (Some local_ticket_42) []
                     [local_comment_501; local_comment_502])]).
Proof.
  apply (new_ticket_with_comments_is_sent_as_update demo_json_loads demo_int_of_str
           client_two_tickets event_42 (mkWorld db_local_ada []) 42 remote_ticket_42
           local_ticket_42 db_ticket_42_synced).
  - vm_compute. reflexivity.
  - reflexivity.
  - reflexivity.
  - vm_compute. reflexivity.
  - discriminate.
Defined.

(** * The sync from start to end *)

(** ** When an upsert goes through *)

Section Progress.

Context {R K V : Type} `{ModelLaws R K V}.

(** The lookup has a row: the row is written in place. *)
Lemma update_or_create_existing (k : K) (v : V) (t : table R) :
  table_wf t -> valid v = true -> k ∈ key_of <$> rows t ->
  ∃ r t', update_or_create k v t = (Ok (r, false), t')
          ∧ index t' = index t ∧ next_id t' = next_id t.
Proof.
  intros Hwf Hv Hk. pose proof Hwf as (Hpk & _ & _).
  apply list_elem_of_fmap in Hk as (r0 & -> & Hr0).
  pose proof (filter_key_member (rows t) r0 (table_keys_NoDup t Hwf) Hr0) as Hone.
  eexists _, _. split.
  - unfold update_or_create. rewrite Hone, Hv. simpl. reflexivity.
  - split; [|done]. unfold index. simpl. apply replace_index; try done.
    + rewrite assign_build. apply key_build.
    + rewrite assign_build. apply pk_build.
Qed.

(** The lookup has no row and the unique column is free: a row is added. *)
Lemma update_or_create_fresh (k : K) (v : V) (t : table R) :
  valid v = true -> k ∉ key_of <$> rows t ->
  unique_of k ∉ (fun x => unique_of (key_of x)) <$> rows t ->
  update_or_create k v t
  = (Ok (build (next_id t) k v, true),
     Table (rows t ++ [build (next_id t) k v]) (next_id t + 1)).
Proof.
  intros Hv Hk Hu. unfold update_or_create.
  pose proof (proj2 (filter_key_nil (rows t) k) Hk) as Hnil.
  rewrite Hnil, Hv. simpl. by rewrite bool_decide_eq_false_2.
Qed.

Lemma update_or_create_total (k : K) (v : V) (t : table R) :
  table_wf t -> valid v = true ->
  (unique_of k ∈ (fun x => unique_of (key_of x)) <$> rows t -> k ∈ key_of <$> rows t) ->
  ∃ r created t', update_or_create k v t = (Ok (r, created), t').
Proof.
  intros Hwf Hv Hu. destruct (decide (k ∈ key_of <$> rows t)) as [Hk|Hk].
  - destruct (update_or_create_existing k v t Hwf Hv Hk) as (r & t' & Hup & _). eauto.
  - eexists _, _, _. apply update_or_create_fresh; [done|done|].
    intros Hin. by apply Hk, Hu.
Qed.

(** On a table that satisfies the schema, the one exception of an upsert is
    the integrity error of the database. *)
Lemma update_or_create_raises_integrity (k : K) (v : V) (t t' : table R) (e : exn) :
  table_wf t -> update_or_create k v t = (Raise e, t') -> e = IntegrityError ∧ t' = t.
Proof.
  intros Hwf Hup. split; [|by apply update_or_create_raise in Hup].
  destruct (decide (k ∈ key_of <$> rows t)) as [Hk|Hk].
  - apply list_elem_of_fmap in Hk as (r0 & -> & Hr0).
    pose proof (filter_key_member (rows t) r0 (table_keys_NoDup t Hwf) Hr0) as Hone.
    unfold update_or_create in Hup. rewrite Hone in Hup.
    destruct (negb (valid v)); [by injection Hup|done].
  - pose proof (proj2 (filter_key_nil (rows t) k) Hk) as Hnil.
    unfold update_or_create in Hup. rewrite Hnil in Hup.
    destruct (negb (valid v)); [by injection Hup|].
    case_bool_decide; [by injection Hup|done].
Qed.

Lemma update_or_create_invalid_integrity (k : K) (v : V) (t : table R) :
  table_wf t -> valid v = false -> update_or_create k v t = (Raise IntegrityError, t).
Proof.
  intros Hwf Hv.
  destruct (update_or_create k v t) as [[[r created]|e] t'] eqn:Hup.
  - apply update_or_create_ok in Hup as (Hvalid & _). congruence.
  - by apply (update_or_create_raises_integrity _ _ _ _ _ Hwf) in Hup as [-> ->].
Qed.

(** The unique column is taken by a row of another lookup: the INSERT is
    refused. *)
Lemma update_or_create_taken (k : K) (v : V) (t : table R) (r0 : R) :
  table_wf t -> r0 ∈ rows t -> unique_of (key_of r0) = unique_of k -> key_of r0 ≠ k ->
  update_or_create k v t = (Raise IntegrityError, t).
Proof.
  intros Hwf Hr0 Hu Hne.
  destruct (update_or_create k v t) as [[[r created]|e] t'] eqn:Hup.
  - exfalso. pose proof Hwf as (_ & Huniq & _).
    apply update_or_create_ok in Hup
      as (_ & [(_ & _ & Hfresh & _)|(_ & r1 & Hone & _)]).
    + apply Hfresh. rewrite <- Hu.
      by apply (list_elem_of_fmap_2 (fun x => unique_of (key_of x))).
    + apply filter_singleton_member in Hone as [Hr1 Hk1]. apply Hne. rewrite <- Hk1.
      f_equal. apply (NoDup_fmap_member_inj (fun x => unique_of (key_of x)) (rows t));
        try done. by rewrite Hk1.
  - by apply (update_or_create_raises_integrity _ _ _ _ _ Hwf) in Hup as [-> ->].
Qed.

(** The rows after an upsert: those before it, and the one returned. *)
Lemma update_or_create_rows (k : K) (v : V) (t t' : table R) (r : R) (created : bool) :
  update_or_create k v t = (Ok (r, created), t') ->
  ∀ x, x ∈ rows t' -> x ∈ rows t ∨ x = r.
Proof.
  intros Hup x Hx.
  apply update_or_create_ok in Hup
    as (_ & [(_ & _ & _ & _ & ->)|(_ & r0 & _ & _ & ->)]); simpl in Hx.
  - apply elem_of_app in Hx as [Hx|Hx]; [by left|].
    apply list_elem_of_singleton in Hx. by right.
  - apply list_elem_of_fmap in Hx as (y & -> & Hy).
    case_bool_decide; [by right|by left].
Qed.

End Progress.

(** ** When the sync goes through *)

(** The cache of remote users takes every user. *)
Lemma local_zd_user_total (remote : RemoteUser.t) (d : DB) :
  db_wf d ->
  ∃ u d1, update_or_create_local_zd_user_for_remote_zd_user remote d = (Ok u, d1).
Proof.
  intros (Hu & _ & _). rewrite local_zd_user_unfold.
  destruct (update_or_create_total (RemoteUser.id remote) (user_defaults remote d)
              (users d) Hu eq_refl) as (r & created & t' & Hup).
  { intros Hin. exact Hin. }
  rewrite Hup. eauto.
Qed.

Lemma author_step_total (user_map : list (RemoteUser.t * Z)) (remote : RemoteUser.t)
    (a : DB) :
  db_wf a ->
  ∃ author user_map' a1,
    match user_map_get user_map remote with
    | Some author => ret (author, user_map)
    | None =>
        let* author := update_or_create_local_zd_user_for_remote_zd_user remote in
        ret (ZendeskUser.id author, user_map ++ [(remote, ZendeskUser.id author)])
    end a = (Ok (author, user_map'), a1).
Proof.
  intros Hwf. destruct (user_map_get user_map remote) as [author|].
  - by exists author, user_map, a.
  - destruct (local_zd_user_total remote a Hwf) as (u & a1 & Hu).
    eexists _, _, a1. unfold bind. rewrite Hu. reflexivity.
Qed.

Lemma on_comments_run (k : Z * Z) (v : Comment.defaults) (a : DB) (r : Comment.t)
    (created : bool) (t' : table Comment.t) :
  update_or_create k v (comments a) = (Ok (r, created), t') ->
  on_comments (update_or_create k v) a
  = (Ok (r, created), mkDB (users a) (tickets a) t' (events a) (local_users a)).
Proof. intros Hup. unfold on_comments. by rewrite Hup. Qed.

(** The loop of [sync_comments] goes through when no comment to sync is
    held by another ticket. *)
Lemma sync_comments_loop_total (remote_comments : list RemoteComment.t)
    (local_ticket : Ticket.t) (user_map : list (RemoteUser.t * Z))
    (local_comments : list Comment.t) (a : DB) :
  db_wf a ->
  comments_storable remote_comments (Ticket.id local_ticket) a ->
  ∃ out F,
    sync_comments_loop remote_comments local_ticket user_map local_comments a = (Ok out, F).
Proof.
  revert user_map local_comments a.
  induction remote_comments as [|remote_comment rest IH];
    intros user_map local_comments a Hwf Hfree.
  - by exists local_comments, a.
  - destruct (author_step_total user_map (RemoteComment.author remote_comment) a Hwf)
      as (author & user_map' & a1 & Hauthor).
    destruct (author_step_ok _ _ _ _ _ _ Hwf Hauthor) as [Hwf1 Hc1].
    pose proof Hwf1 as (_ & _ & Hwc).
    destruct (update_or_create_total
                (RemoteComment.id remote_comment, Ticket.id local_ticket)
                {| Comment.d_author := author;
                   Comment.d_body := RemoteComment.body remote_comment;
                   Comment.d_public := RemoteComment.public remote_comment;
                   Comment.d_created_at := RemoteComment.created_at remote_comment |}
                (comments a1) Hwc eq_refl) as (r & created & t' & Hup).
    { intros Hin. apply list_elem_of_fmap in Hin as (c & Hz & Hc). simpl in Hz.
      apply list_elem_of_fmap. exists c. split; [|done]. simpl.
      rewrite Hc1 in Hc. rewrite (Hfree c Hc); [by rewrite Hz|].
      rewrite <- Hz, fmap_cons. by left. }
    pose proof (on_comments_run _ _ _ _ _ _ Hup) as Hcomment.
    destruct (on_comments_ok _ _ _ _ _ _ Hwf1 Hcomment) as [Hwf2 _].
    destruct (IH user_map' (local_comments ++ [r]) _ Hwf2) as (out & F & Hrest).
    { intros c Hc Hin. simpl in Hc.
      destruct (update_or_create_rows _ _ _ _ _ _ Hup c Hc) as [Hold| ->].
      - rewrite Hc1 in Hold. apply (Hfree c Hold). rewrite fmap_cons. by right.
      - apply (update_or_create_wf _ _ _ _ _ _ Hwc) in Hup as (_ & _ & _ & Hk).
        by injection Hk. }
    exists out, F. simpl. unfold bind at 1. rewrite Hauthor.
    unfold bind at 1. rewrite Hcomment. exact Hrest.
Qed.

(** The key of the ticket that the upsert of [sync_ticket] returns. *)
Lemma on_tickets_pk (k : Z) (v : Ticket.defaults) (a a1 : DB) (t : Ticket.t)
    (created : bool) :
  on_tickets (update_or_create k v) a = (Ok (t, created), a1) ->
  Ticket.id t = local_ticket_pk k a ∧ comments a1 = comments a.
Proof.
  unfold on_tickets.
  destruct (update_or_create k v (tickets a)) as [[[r c]|e] t'] eqn:Hup; [|done].
  intros [= <- _ <-]. split; [|done].
  unfold local_ticket_pk, pre_sync_ticket_of.
  apply update_or_create_ok in Hup
    as (_ & [(_ & Hnil & _ & -> & _)|(_ & r0 & Hone & -> & _)]).
  - change (filter (fun t => Ticket.zendesk_id t = k) (rows (tickets a)) = []) in Hnil.
    by rewrite Hnil.
  - change (filter (fun t => Ticket.zendesk_id t = k) (rows (tickets a)) = [r0]) in Hone.
    by rewrite Hone.
Qed.

Lemma local_ticket_pk_tickets (k : Z) (d d' : DB) :
  tickets d' = tickets d -> local_ticket_pk k d' = local_ticket_pk k d.
Proof.
  intros Htk. unfold local_ticket_pk, pre_sync_ticket_of. by rewrite Htk.
Qed.

(** [sync_ticket] goes through when the status is one of the six, the
    comments can be fetched, and none of them is held by another ticket. *)
Lemma sync_ticket_total (client : Client) (remote : RemoteTicket.t)
    (remote_comments : list RemoteComment.t) (d : DB) :
  db_wf d ->
  is_Some (Ticket.states_by_id_get (lower (RemoteTicket.status remote))) ->
  client_tickets_comments client (RemoteTicket.id remote) = Ok remote_comments ->
  comments_storable remote_comments (local_ticket_pk (RemoteTicket.id remote) d) d ->
  ∃ t created d', sync_ticket client remote d = (Ok (t, created), d').
Proof.
  intros Hwf Hstatus Hfetch Hfree.
  destruct (local_zd_user_total (RemoteTicket.requester remote) d Hwf) as (u & a1 & Hu).
  destruct (local_zd_user_ok _ _ _ _ Hwf Hu) as [Hwf1 _].
  pose proof (local_zd_user_frame (RemoteTicket.requester remote) d) as [Htk Hc].
  rewrite Hu in Htk, Hc. simpl in Htk, Hc.
  pose proof Hwf1 as (_ & Hwt & _).
  destruct (update_or_create_total (RemoteTicket.id remote)
              {| Ticket.d_requester := ZendeskUser.id u;
                 Ticket.d_subject := RemoteTicket.subject remote;
                 Ticket.d_description := RemoteTicket.description remote;
                 Ticket.d_url := RemoteTicket.url remote;
                 Ticket.d_status :=
                   Ticket.states_by_id_get (lower (RemoteTicket.status remote));
                 Ticket.d_custom_fields := RemoteTicket.custom_fields remote;
                 Ticket.d_tags := RemoteTicket.tags remote;
                 Ticket.d_created_at := RemoteTicket.created_at remote;
                 Ticket.d_updated_at := RemoteTicket.updated_at remote |}
              (tickets a1) Hwt) as (t & created & t' & Hup).
  { simpl. by apply bool_decide_eq_true_2. }
  { intros Hin. exact Hin. }
  assert (on_tickets (update_or_create (RemoteTicket.id remote)
              {| Ticket.d_requester := ZendeskUser.id u;
                 Ticket.d_subject := RemoteTicket.subject remote;
                 Ticket.d_description := RemoteTicket.description remote;
                 Ticket.d_url := RemoteTicket.url remote;
                 Ticket.d_status :=
                   Ticket.states_by_id_get (lower (RemoteTicket.status remote));
                 Ticket.d_custom_fields := RemoteTicket.custom_fields remote;
                 Ticket.d_tags := RemoteTicket.tags remote;
                 Ticket.d_created_at := RemoteTicket.created_at remote;
                 Ticket.d_updated_at := RemoteTicket.updated_at remote |}) a1
          = (Ok (t, created),
             mkDB (users a1) t' (comments a1) (events a1) (local_users a1))) as Hticket.
  { unfold on_tickets. by rewrite Hup. }
  destruct (on_tickets_ok _ _ _ _ _ _ Hwf1 Hticket) as [Hwf2 _].
  destruct (on_tickets_pk _ _ _ _ _ _ Hticket) as [Hpk Hc2].
  rewrite (local_ticket_pk_tickets _ d a1 Htk) in Hpk.
  destruct (sync_comments_loop_total remote_comments t
              [(RemoteTicket.requester remote, Ticket.requester t)] [] _ Hwf2)
    as (out & F & Hloop).
  { intros c Hin Hid. rewrite Hpk. apply Hfree; [|done].
    rewrite <- Hc. exact Hin. }
  exists t, created, F. unfold sync_ticket. unfold bind at 1. rewrite Hu.
  unfold bind at 1. rewrite Hticket.
  unfold bind at 1. unfold sync_comments. unfold bind at 1. unfold lift.
  rewrite Hfetch. unfold bind at 1. rewrite Hloop. done.
Qed.

(** ** The sync, twice in succession *)

(** C5. On a database that satisfies its schema, when the remote side
    hands out the ticket, in one of the six statuses, and its comments,
    none of them held by another ticket, the sync goes through; it reports
    the ticket as created exactly when no row had its remote id; run again
    at once on the same remote state it returns the same ticket with
    [created = False] and leaves the database exactly as the first run
    left it; and in that database no two comments and no two tickets have
    the same remote id. *)
Theorem sync_ticket_id_twice :
  ∀ (client : Client) (ticket_id : Z) (remote : RemoteTicket.t)
    (remote_comments : list RemoteComment.t) (d0 : DB),
    db_wf d0 ->
    client_tickets client ticket_id = Ok remote ->
    client_tickets_comments client (RemoteTicket.id remote) = Ok remote_comments ->
    is_Some (Ticket.states_by_id_get (lower (RemoteTicket.status remote))) ->
    comments_storable remote_comments (local_ticket_pk (RemoteTicket.id remote) d0) d0 ->
    ∃ (t1 : Ticket.t) (created1 : bool) (d1 : DB),
      sync_ticket_id client ticket_id d0 = (Ok (t1, created1), d1)
      ∧ (created1 = true
         <-> RemoteTicket.id remote ∉ Ticket.zendesk_id <$> rows (tickets d0))
      ∧ sync_ticket_id client ticket_id d1 = (Ok (t1, false), d1)
      ∧ NoDup (Comment.zendesk_id <$> rows (comments d1))
      ∧ NoDup (Ticket.zendesk_id <$> rows (tickets d1)).
Proof.
  intros client ticket_id remote remote_comments d0 Hwf0 Hticket Hfetch Hstatus Hfree.
  destruct (sync_ticket_total client remote remote_comments d0 Hwf0 Hstatus Hfetch Hfree)
    as (t1 & created1 & d1 & Hrun).
  destruct (sync_ticket_twice _ _ _ _ _ _ Hwf0 Hrun) as (Hwf1 & Hcreated & Hagain).
  exists t1, created1, d1. split; [|split; [exact Hcreated|split; [|split]]].
  - unfold sync_ticket_id, bind, lift. by rewrite Hticket.
  - unfold sync_ticket_id, bind, lift. by rewrite Hticket.
  - destruct Hwf1 as (_ & _ & _ & Hc & _). exact Hc.
  - destruct Hwf1 as (_ & (_ & Ht & _) & _). exact Ht.
Qed.

(** Ticket 42, new to the database and with its two comments: created by
    the first sync, found again by the second. *)
Lemma sync_ticket_id_twice_witness :
  sync_ticket_id client_two_tickets 42 db_local_ada
  = (Ok (local_ticket_42, true), db_ticket_42_synced)
  ∧ sync_ticket_id client_two_tickets 42 db_ticket_42_synced
    = (Ok (local_ticket_42, false), db_ticket_42_synced)
  ∧ NoDup (Comment.zendesk_id <$> rows (comments db_ticket_42_synced)).
Proof.
  destruct (sync_ticket_id_twice client_two_tickets 42 remote_ticket_42
              [remote_comment_501; remote_comment_502] db_local_ada)
    as (t1 & created1 & d1 & Hfirst & _ & Hagain & Hcomments & _).
  - exact db_local_ada_wf.
  - reflexivity.
  - reflexivity.
  - vm_compute. eexists. reflexivity.
  - intros c Hc. simpl in Hc. by apply elem_of_nil in Hc.
  - assert (sync_ticket_id client_two_tickets 42 db_local_ada
            = (Ok (local_ticket_42, true), db_ticket_42_synced)) as Hrun
      by (vm_compute; reflexivity).
    rewrite Hrun in Hfirst. injection Hfirst as <- <- <-.
    split; [exact Hrun|]. split; [exact Hagain|exact Hcomments].
Defined.

(** ** The status of a synced ticket, known or not *)

Lemma states_by_id_get_none (s : string) :
  (∀ st, s ≠ state_id st) -> Ticket.states_by_id_get s = None.
Proof.
  intros Hnone. destruct (Ticket.states_by_id_get s) as [st|] eqn:Hst; [|done].
  apply states_by_id_get_spec in Hst. by destruct (Hnone st).
Qed.

(** C6, as the code has it.  On a database that satisfies its schema the
    remote status is lower-cased and looked up among the six constants.
    When it is the id of one of them, and the comments are fetched and none
    is held by another ticket, the sync goes through, returns the ticket
    with that constant and leaves a row with it under the remote id.  When
    it is the id of none, the lookup gives [None] and raises nothing: the
    requester is written to the user table, the write of the ticket is
    refused with the integrity error of the database, and the tables of
    tickets and comments are as they were. *)
Theorem sync_ticket_status_is_mapped_or_refused :
  ∀ (client : Client) (remote : RemoteTicket.t) (d : DB),
    db_wf d ->
    (∀ (st : Ticket.states) (remote_comments : list RemoteComment.t),
        lower (RemoteTicket.status remote) = state_id st ->
        client_tickets_comments client (RemoteTicket.id remote) = Ok remote_comments ->
        comments_storable remote_comments (local_ticket_pk (RemoteTicket.id remote) d) d ->
        ∃ (t : Ticket.t) (created : bool) (d' : DB),
          sync_ticket client remote d = (Ok (t, created), d')
          ∧ Ticket.status t = Some st
          ∧ ∃ row, row ∈ rows (tickets d')
                   ∧ Ticket.zendesk_id row = RemoteTicket.id remote
                   ∧ Ticket.status row = Some st)
    ∧ ((∀ st : Ticket.states, lower (RemoteTicket.status remote) ≠ state_id st) ->
       Ticket.states_by_id_get (lower (RemoteTicket.status remote)) = None
       ∧ ∃ (u : ZendeskUser.t) (d1 : DB),
           update_or_create_local_zd_user_for_remote_zd_user
             (RemoteTicket.requester remote) d = (Ok u, d1)
           ∧ sync_ticket client remote d = (Raise IntegrityError, d1)
           ∧ tickets d1 = tickets d
           ∧ comments d1 = comments d).
Proof.
  intros client remote d Hwf. split.
  - intros st remote_comments Hst Hfetch Hfree.
    apply states_by_id_get_spec in Hst.
    destruct (sync_ticket_total client remote remote_comments d Hwf) as (t & created & d' & Hrun);
      [by rewrite Hst|done|done|].
    destruct (sync_ticket_stores_remote_truth_aux _ _ _ _ _ _ Hwf Hrun)
      as (Hrow & (Hzid & _ & _ & _ & Hstatus & _) & _).
    exists t, created, d'. split; [done|]. rewrite Hstatus, Hst. split; [done|].
    exists t. by rewrite Hstatus, Hst.
  - intros Hnone. apply states_by_id_get_none in Hnone. split; [done|].
    destruct (local_zd_user_total (RemoteTicket.requester remote) d Hwf) as (u & d1 & Hu).
    destruct (local_zd_user_ok _ _ _ _ Hwf Hu) as [(_ & Hwt & _) _].
    pose proof (local_zd_user_frame (RemoteTicket.requester remote) d) as [Htk Hc].
    rewrite Hu in Htk, Hc. simpl in Htk, Hc.
    exists u, d1. split; [done|]. split; [|done].
    unfold sync_ticket. unfold bind at 1. rewrite Hu.
    unfold bind at 1, on_tickets. rewrite Hnone.
    rewrite (update_or_create_invalid_integrity _ _ (tickets d1) Hwt); [|done].
    by destruct d1.
Qed.

(** Ticket 42, whose status is spelled [Open], is stored as [open]; the
    ticket in the status [Archived] is refused. *)
Lemma sync_ticket_status_is_mapped_or_refused_witness :
  (∃ (t : Ticket.t) (created : bool) (d' : DB),
      sync_ticket client_ticket_42 remote_ticket_42 empty_db = (Ok (t, created), d')
      ∧ Ticket.status t = Some Ticket.open
      ∧ ∃ row, row ∈ rows (tickets d')
               ∧ Ticket.zendesk_id row = 42
               ∧ Ticket.status row = Some Ticket.open)
  ∧ sync_ticket client_ticket_42 remote_ticket_archived empty_db
    = (Raise IntegrityError, db_only_ada_cached).
Proof.
  assert (db_wf empty_db) as Hwf by (repeat split; constructor).
  destruct (sync_ticket_status_is_mapped_or_refused client_ticket_42 remote_ticket_42
              empty_db Hwf) as (Hknown & _).
  destruct (sync_ticket_status_is_mapped_or_refused client_ticket_42
              remote_ticket_archived empty_db Hwf) as (_ & Hunknown).
  split.
  - apply (Hknown Ticket.open []).
    + reflexivity.
    + reflexivity.
    + intros c Hc. simpl in Hc. by apply elem_of_nil in Hc.
  - destruct Hunknown as (_ & u & d1 & Hu & Hrun & _).
    + intros st. destruct st; vm_compute; discriminate.
    + assert (update_or_create_local_zd_user_for_remote_zd_user remote_ada empty_db
              = (Ok local_ada_cached, db_only_ada_cached)) as Hada
        by (vm_compute; reflexivity).
      change (RemoteTicket.requester remote_ticket_archived) with remote_ada in Hu.
      rewrite Hada in Hu. injection Hu as <- <-. exact Hrun.
Defined.

(** C6, as stated, fails: there is no error of its own for a status that is
    none of the six.  On the ticket in the status [Archived] the lookup
    gives [None] and raises nothing; what fails is the write of the ticket,
    with the integrity error of the database, the exception that a remote
    comment id taken by another ticket gives as well; and by then the
    requester is in the user table. *)
Lemma unknown_status_has_no_error_of_its_own :
  Ticket.states_by_id_get (lower (RemoteTicket.status remote_ticket_archived)) = None
  ∧ sync_ticket client_ticket_42 remote_ticket_archived empty_db
    = (Raise IntegrityError, db_only_ada_cached)
  ∧ users db_only_ada_cached ≠ users empty_db
  ∧ Ticket.states_by_id_get (lower (RemoteTicket.status remote_ticket_43))
    = Some Ticket.open
  ∧ fst (sync_ticket client_two_tickets remote_ticket_43 db_ticket_42_synced)
    = Raise IntegrityError.
Proof.
  split; [vm_compute; reflexivity|]. split; [vm_compute; reflexivity|].
  split; [discriminate|]. split; vm_compute; reflexivity.
Qed.

(** ** The scope of comment uniqueness, in [sync_comments] *)

Lemma on_comments_raise (k : Z * Z) (v : Comment.defaults) (a : DB) (e : exn)
    (t' : table Comment.t) :
  update_or_create k v (comments a) = (Raise e, t') ->
  on_comments (update_or_create k v) a
  = (Raise e, mkDB (users a) (tickets a) t' (events a) (local_users a)).
Proof. intros Hup. unfold on_comments. by rewrite Hup. Qed.

(** Comments that all have their row under the ticket: the loop writes
    each in place and adds no row. *)
Lemma sync_comments_loop_in_place (remote_comments : list RemoteComment.t)
    (local_ticket : Ticket.t) (user_map : list (RemoteUser.t * Z))
    (local_comments : list Comment.t) (a : DB) :
  db_wf a ->
  (∀ rc, rc ∈ remote_comments ->
         (RemoteComment.id rc, Ticket.id local_ticket) ∈ fst <$> index (comments a)) ->
  ∃ out F,
    sync_comments_loop remote_comments local_ticket user_map local_comments a = (Ok out, F)
    ∧ index (comments F) = index (comments a)
    ∧ next_id (comments F) = next_id (comments a).
Proof.
  revert user_map local_comments a.
  induction remote_comments as [|remote_comment rest IH];
    intros user_map local_comments a Hwf Hpresent.
  - by exists local_comments, a.
  - destruct (author_step_total user_map (RemoteComment.author remote_comment) a Hwf)
      as (author & user_map' & a1 & Hauthor).
    destruct (author_step_ok _ _ _ _ _ _ Hwf Hauthor) as [Hwf1 Hc1].
    pose proof Hwf1 as (_ & _ & Hwc).
    destruct (update_or_create_existing
                (RemoteComment.id remote_comment, Ticket.id local_ticket)
                {| Comment.d_author := author;
                   Comment.d_body := RemoteComment.body remote_comment;
                   Comment.d_public := RemoteComment.public remote_comment;
                   Comment.d_created_at := RemoteComment.created_at remote_comment |}
                (comments a1) Hwc eq_refl) as (r & t' & Hup & Hidx & Hnext).
    { rewrite <- index_key, Hc1. apply Hpresent. by left. }
    pose proof (on_comments_run _ _ _ _ _ _ Hup) as Hcomment.
    destruct (on_comments_ok _ _ _ _ _ _ Hwf1 Hcomment) as [Hwf2 _].
    destruct (IH user_map' (local_comments ++ [r]) _ Hwf2) as (out & F & Hrest & HidxF & HnextF).
    { intros rc Hrc. simpl. rewrite Hidx, Hc1. apply Hpresent. by right. }
    simpl in HidxF, HnextF.
    exists out, F. split; [|split].
    + simpl. unfold bind at 1. rewrite Hauthor.
      unfold bind at 1. rewrite Hcomment. exact Hrest.
    + by rewrite HidxF, Hidx, Hc1.
    + by rewrite HnextF, Hnext, Hc1.
Qed.

(** A comment whose remote id is held by another ticket: the loop is
    refused with the integrity error, at that comment or at one before it,
    and the row of the other ticket is as it was. *)
Lemma sync_comments_loop_refused (remote_comments : list RemoteComment.t)
    (local_ticket : Ticket.t) (user_map : list (RemoteUser.t * Z))
    (local_comments : list Comment.t) (a : DB) (rc : RemoteComment.t) (c : Comment.t) :
  db_wf a ->
  rc ∈ remote_comments -> c ∈ rows (comments a) ->
  Comment.zendesk_id c = RemoteComment.id rc ->
  Comment.ticket c ≠ Ticket.id local_ticket ->
  ∃ F,
    sync_comments_loop remote_comments local_ticket user_map local_comments a
    = (Raise IntegrityError, F)
    ∧ c ∈ rows (comments F).
Proof.
  revert user_map local_comments a.
  induction remote_comments as [|remote_comment rest IH];
    intros user_map local_comments a Hwf Hrc Hc Hz Hne.
  - by apply elem_of_nil in Hrc.
  - destruct (author_step_total user_map (RemoteComment.author remote_comment) a Hwf)
      as (author & user_map' & a1 & Hauthor).
    destruct (author_step_ok _ _ _ _ _ _ Hwf Hauthor) as [Hwf1 Hc1].
    pose proof Hwf1 as (_ & _ & Hwc).
    rewrite <- Hc1 in Hc.
    simpl. unfold bind at 1. rewrite Hauthor. unfold bind at 1.
    destruct (update_or_create
                (RemoteComment.id remote_comment, Ticket.id local_ticket)
                {| Comment.d_author := author;
                   Comment.d_body := RemoteComment.body remote_comment;
                   Comment.d_public := RemoteComment.public remote_comment;
                   Comment.d_created_at := RemoteComment.created_at remote_comment |}
                (comments a1)) as [[[r created]|e] t'] eqn:Hup.
    + assert (RemoteComment.id remote_comment ≠ Comment.zendesk_id c) as Hother.
      { intros Heq.
        rewrite (update_or_create_taken _ _ (comments a1) c Hwc Hc) in Hup; [done| |].
        - simpl. by rewrite Heq.
        - intros Hk. injection Hk as _ Ht. done. }
      apply elem_of_cons in Hrc as [->|Hrc]; [by rewrite Hz in Hother|].
      pose proof (on_comments_run _ _ _ _ _ _ Hup) as Hcomment.
      destruct (on_comments_ok _ _ _ _ _ _ Hwf1 Hcomment) as [Hwf2 _].
      rewrite Hcomment. apply IH; try done. simpl.
      apply (update_or_create_keeps_others _ _ _ _ _ _ _ Hwc Hup); [done|].
      intros Hk. injection Hk as Hzz _. by apply Hother.
    + rewrite (on_comments_raise _ _ _ _ _ Hup).
      apply (update_or_create_raises_integrity _ _ _ _ _ Hwc) in Hup as [-> ->].
      eexists. split; [reflexivity|]. done.
Qed.

(** C10, as the code has it.  On a database that satisfies its schema,
    [sync_comments] looks each remote comment up by the pair (remote
    comment id, ticket).  When every comment to sync has its row under the
    ticket, the sync goes through and writes the rows in place: no row is
    added, no key or lookup changes, and, the remote ids being distinct,
    the rows hold what the remote comments hold.  When a comment to sync
    has its remote id on a row under another ticket, the sync is refused
    with an integrity error and that row stays.  And however the sync ends,
    no two rows have the same remote comment id. *)
Theorem comment_lookup_by_pair_unique_by_remote_id :
  ∀ (client : Client) (zd_ticket : RemoteTicket.t) (local_ticket : Ticket.t)
    (remote_comments : list RemoteComment.t) (d : DB),
    db_wf d ->
    client_tickets_comments client (RemoteTicket.id zd_ticket) = Ok remote_comments ->
    (comments_present remote_comments (Ticket.id local_ticket) d ->
     ∃ (out : list Comment.t) (d' : DB),
       sync_comments client zd_ticket local_ticket d = (Ok out, d')
       ∧ index (comments d') = index (comments d)
       ∧ next_id (comments d') = next_id (comments d)
       ∧ (NoDup (RemoteComment.id <$> remote_comments) ->
          ∃ local_comments,
            Forall2 (mirrors (Ticket.id local_ticket)) remote_comments local_comments
            ∧ Forall (fun c => c ∈ rows (comments d')) local_comments))
    ∧ (∀ (rc : RemoteComment.t) (c : Comment.t),
          rc ∈ remote_comments -> c ∈ rows (comments d) ->
          Comment.zendesk_id c = RemoteComment.id rc ->
          Comment.ticket c ≠ Ticket.id local_ticket ->
          ∃ d', sync_comments client zd_ticket local_ticket d = (Raise IntegrityError, d')
                ∧ c ∈ rows (comments d'))
    ∧ NoDup (Comment.zendesk_id
               <$> rows (comments (snd (sync_comments client zd_ticket local_ticket d)))).
Proof.
  intros client zd_ticket local_ticket remote_comments d Hwf Hfetch.
  split; [|split].
  - intros Hpresent.
    destruct (sync_comments_loop_in_place remote_comments local_ticket
                [(RemoteTicket.requester zd_ticket, Ticket.requester local_ticket)] [] d Hwf)
      as (out & F & Hloop & Hidx & Hnext).
    { intros rc Hrc. destruct (Hpresent rc Hrc) as (c & Hc & Hz & Ht).
      rewrite index_key. apply list_elem_of_fmap. exists c. split; [|done].
      simpl. by rewrite Hz, Ht. }
    exists (sort_comments out), F. split; [|split; [done|split; [done|]]].
    + unfold sync_comments. unfold bind at 1. unfold lift. rewrite Hfetch.
      unfold bind at 1. by rewrite Hloop.
    + intros Hnd.
      destruct (sync_comments_loop_stored _ _ _ _ _ _ _ Hwf Hnd Hloop)
        as (new & _ & Hnew & Hstored).
      by exists new.
  - intros rc c Hrc Hc Hz Hne.
    destruct (sync_comments_loop_refused remote_comments local_ticket
                [(RemoteTicket.requester zd_ticket, Ticket.requester local_ticket)] [] d
                rc c Hwf Hrc Hc Hz Hne) as (F & Hloop & Hkept).
    exists F. split; [|done].
    unfold sync_comments. unfold bind at 1. unfold lift. rewrite Hfetch.
    unfold bind at 1. by rewrite Hloop.
  - destruct (sync_comments_keeps_schema_aux client zd_ticket local_ticket d Hwf)
      as [(_ & _ & _ & Hc & _) _].
    exact Hc.
Qed.

(** The first comment on ticket 42, edited on the remote side, is written
    over its row; the same comment handed out with ticket 43 is refused. *)
Lemma comment_lookup_by_pair_unique_by_remote_id_witness :
  (sync_comments client_comment_edited remote_ticket_42 local_ticket_42 db_ticket_42_synced
   = (Ok [local_comment_501_edited; local_comment_502], db_ticket_42_resynced)
   ∧ index (comments db_ticket_42_resynced) = index (comments db_ticket_42_synced)
   ∧ ∃ local_comments,
       Forall2 (mirrors 1) [remote_comment_501_edited; remote_comment_502] local_comments
       ∧ Forall (fun c => c ∈ rows (comments db_ticket_42_resynced)) local_comments)
  ∧ (∃ d', sync_comments client_two_tickets remote_ticket_43 local_ticket_43
             db_ticket_42_synced
           = (Raise IntegrityError, d')
           ∧ local_comment_501 ∈ rows (comments d')).
Proof.
  destruct (comment_lookup_by_pair_unique_by_remote_id client_comment_edited
              remote_ticket_42 local_ticket_42
              [remote_comment_501_edited; remote_comment_502] db_ticket_42_synced
              db_ticket_42_synced_wf eq_refl) as (Hin_place & _ & _).
  destruct (comment_lookup_by_pair_unique_by_remote_id client_two_tickets
              remote_ticket_43 local_ticket_43 [remote_comment_501] db_ticket_42_synced
              db_ticket_42_synced_wf eq_refl) as (_ & Hrefused & _).
  split.
  - destruct Hin_place as (out & d' & Hrun & Hidx & _ & Hstored).
    + intros rc Hrc. apply elem_of_cons in Hrc as [->|Hrc].
      * exists local_comment_501. split; [by left|done].
      * apply list_elem_of_singleton in Hrc as ->.
        exists local_comment_502. split; [right; by left|done].
    + assert (sync_comments client_comment_edited remote_ticket_42 local_ticket_42
                db_ticket_42_synced
              = (Ok [local_comment_501_edited; local_comment_502], db_ticket_42_resynced))
        as Hcomputed by (vm_compute; reflexivity).
      rewrite Hcomputed in Hrun. injection Hrun as <- <-.
      split; [exact Hcomputed|]. split; [exact Hidx|].
      apply Hstored. apply (bool_decide_unpack _). vm_compute. reflexivity.
  - apply (Hrefused remote_comment_501 local_comment_501).
    + by left.
    + by left.
    + reflexivity.
    + simpl. discriminate.
Defined.
